(** * Prediction service of [api/app.py]: embedding and properties

    The service loads three artifacts (classifier, scaler, metadata) into
    module-level globals, answers a health check, and serves [predict], which
    hands [evaluate_model] to a thread pool.

    Conventions of the embedding.
    - Probabilities and feature values are rationals ([Q]): the code only
      copies and compares them ([max], dictionary construction), and every
      finite float is a rational.  NaN is outside the embedding.
    - A Python [dict] whose iteration order is observable is an association
      list in insertion order with pairwise distinct keys ([dict_set]);
      a dict that is only subscripted is a [gmap].
    - The scaler and the classifier are objects unpickled from disk: they are
      records of the methods the code calls, each method returning a value or
      raising.
    - Exceptions are data; the f-strings building the [detail] of an
      [HTTPException] are kept structured (the cause is a field).
    - A function that reads the module-level globals takes them as its first
      argument; [predict] also threads the list of calls handed to the
      executor. *)

From Stdlib Require Import ZArith QArith String Ascii.
From Stdlib Require OrderedTypeEx.
From stdpp Require Import base option list sorting strings gmap.

Local Open Scope string_scope.
Local Open Scope list_scope.
Local Open Scope Z_scope.

(** ** Exceptions and outcomes *)

Inductive PyException : Type :=
| KeyError_str (key : string)        (* data[feat] *)
| KeyError_int (key : Z)             (* reverse_mapping[prediction] *)
| IndexError                         (* prediction_proba[i] *)
| ValueError_int (literal : string)  (* int(original_prediction) *)
| ValueError_max_empty               (* max() of an empty sequence *)
| TypeError_None                     (* subscripting the global when it is None *)
| AttributeError_None                (* calling a method on a global that is None *)
| LibraryError (msg : string).       (* raised inside scaler.transform / model.predict* *)

Inductive Try (E A : Type) : Type :=
| Ok (v : A)
| Raise (e : E).
Arguments Ok {E A} v.
Arguments Raise {E A} e.

Definition try_bind {E A B} (m : Try E A) (k : A → Try E B) : Try E B :=
  match m with
  | Ok v => k v
  | Raise e => Raise e
  end.

Notation "'let*' x ':=' m 'in' k" := (try_bind m (λ x, k))
  (at level 10, x name, m at level 100, k at level 200).

(** [HTTPException(status_code, detail)].  The three details the module
    builds:
    - ["Model components not loaded. Please check server logs."]
    - [f"Error during prediction: {str(e)}"]
    - [f"Prediction failed: {str(e)}"], where [e] is what the executor call
      raised, itself an [HTTPException]. *)
Inductive HTTPException : Type :=
| HTTPError (status_code : Z) (detail : Detail)
with Detail : Type :=
| ModelComponentsNotLoaded
| ErrorDuringPrediction (e : PyException)
| PredictionFailed (e : HTTPException).

(** ** Insertion-ordered dictionaries *)

Section dict.
Context {K V : Type} `{EqDecision K}.

(** [d[k] = v]: an existing key keeps its position, a new key goes last. *)
Fixpoint dict_set (k : K) (v : V) (d : list (K * V)) : list (K * V) :=
  match d with
  | [] => [(k, v)]
  | (k', v') :: d' =>
      if decide (k = k') then (k, v) :: d' else (k', v') :: dict_set k v d'
  end.

Fixpoint dict_get (k : K) (d : list (K * V)) : option V :=
  match d with
  | [] => None
  | (k', v') :: d' => if decide (k = k') then Some v' else dict_get k d'
  end.

Definition dict_keys (d : list (K * V)) : list K := d.*1.
Definition dict_values (d : list (K * V)) : list V := d.*2.

(** [dict(pairs)]: later pairs overwrite earlier ones. *)
Definition dict_of_items (items : list (K * V)) : list (K * V) :=
  foldl (λ d kv, dict_set kv.1 kv.2 d) [] items.
End dict.

(** ** Builtins *)

(** [int(s)] for a [str] of ASCII characters: surrounding whitespace
    (tab, LF, VT, FF, CR, space) is stripped, one sign is allowed, then
    decimal digits, single underscores allowed between digits.  Anything
    else raises [ValueError]. *)
Definition is_space (c : ascii) : bool :=
  let n := nat_of_ascii c in
  (((9 <=? n)%nat && (n <=? 13)%nat) || (n =? 32)%nat)%bool.

Definition digit_value (c : ascii) : option Z :=
  let n := nat_of_ascii c in
  if ((48 <=? n)%nat && (n <=? 57)%nat)%bool then Some (Z.of_nat n - 48) else None.

Fixpoint lstrip (s : list ascii) : list ascii :=
  match s with
  | c :: s' => if is_space c then lstrip s' else s
  | [] => []
  end.

Definition strip (s : list ascii) : list ascii :=
  rev (lstrip (rev (lstrip s))).

(** [digits acc after_digit s]: [after_digit] tells whether the previous
    character was a digit, the only place where an underscore or the end of
    the literal is accepted. *)
Fixpoint digits (acc : Z) (after_digit : bool) (s : list ascii) : option Z :=
  match s with
  | [] => if after_digit then Some acc else None
  | c :: s' =>
      match digit_value c with
      | Some d => digits (10 * acc + d) true s'
      | None =>
          if (Ascii.eqb c "_" && after_digit)%bool then digits acc false s'
          else None
      end
  end.

Definition int_literal (s : list ascii) : option Z :=
  match s with
  | c :: s' =>
      if Ascii.eqb c "-" then Z.opp <$> digits 0 false s'
      else if Ascii.eqb c "+" then digits 0 false s'
      else digits 0 false s
  | [] => None
  end.

Definition py_int (s : string) : Try PyException Z :=
  match int_literal (strip (list_ascii_of_string s)) with
  | Some z => Ok z
  | None => Raise (ValueError_int s)
  end.

(** [max(xs)]: the first element that no later element exceeds. *)
Definition py_max (xs : list Q) : Try PyException Q :=
  match xs with
  | [] => Raise ValueError_max_empty
  | x :: rest => Ok (foldl (λ m y, if Qle_bool y m then m else y) x rest)
  end.

(** [sorted] on strings: code-point order. *)
Definition str_le : relation string := λ s1 s2, String.leb s1 s2.

Definition sorted (l : list string) : list string := merge_sort str_le l.

(** [json.loads] of a document that is an object with integer values: the
    document is given by its members in document order. *)
Definition json_loads (members : list (string * Z)) : list (string * Z) :=
  dict_of_items members.

(** ** Artifacts *)

(** [scaler.transform(X)] on the one-row matrix [X]. *)
Record Scaler : Type := {
  scaler_transform : list Q → Try PyException (list Q)
}.

(** [model.predict(X)[0]] and [model.predict_proba(X)[0]]. *)
Record Model : Type := {
  model_predict : list Q → Try PyException Z;
  model_predict_proba : list Q → Try PyException (list Q)
}.

(** [model_metadata.json], taken to hold both keys the code subscripts:
    [feature_names], a list of strings, and [class_mapping], an embedded JSON
    document that is an object with integer values, given here by its
    members.  What lines 178 and 189-190 raise on a metadata document of
    another shape (a missing key, a [class_mapping] that is not a string or
    does not parse to an object) is outside the embedding. *)
Record Metadata : Type := {
  feature_names : list string;
  class_mapping : list (string * Z)
}.

(** The module-level globals, [None] until loaded. *)
Record Globals : Type := {
  model : option Model;
  scaler : option Scaler;
  metadata : option Metadata
}.

Definition unloaded : Globals :=
  {| model := None; scaler := None; metadata := None |}.

(** ** Request and response *)

(** [input_data.dict()]: the field values by field name. *)
Abbreviation PredictionInput := (gmap string Q).

Definition PredictionInput_fields : list string :=
  ["feat1"; "feat2"; "feat3"; "feat4"; "feat5"; "feat6"; "feat7"; "feat8";
   "feat9"; "feat10"; "feat11"; "feat12"; "feat13"; "feat14"; "feat15";
   "feat16"; "feat17"; "feat18"; "feat19"; "feat20"; "feat21"; "feat22";
   "feat23"; "feat24"; "feat25"; "feat26"; "feat27"; "feat28"; "feat29";
   "feat30"; "feat31"; "feat32"; "feat33"; "feat34"; "feat35"; "feat36"].

(** What request validation guarantees of a [PredictionInput]. *)
Definition PredictionInput_valid (input_data : PredictionInput) : Prop :=
  ∀ k, is_Some (input_data !! k) ↔ k ∈ PredictionInput_fields.

Record PredictionOutput : Type := {
  predicted_class : Z;
  prediction_probabilities : list (string * Q);
  confidence : Q
}.

(** ** [evaluate_model] *)

(** [[data[feat] for feat in feature_names]] *)
Fixpoint feature_vector (data : gmap string Q) (names : list string)
  : Try PyException (list Q) :=
  match names with
  | [] => Ok []
  | feat :: names' =>
      match data !! feat with
      | None => Raise (KeyError_str feat)
      | Some x =>
          let* xs := feature_vector data names' in
          Ok (x :: xs)
      end
  end.

(** [{v: k for k, v in class_mapping.items()}] *)
Definition reverse_mapping (class_mapping : list (string * Z)) : gmap Z string :=
  foldl (λ m kv, <[kv.2 := kv.1]> m) ∅ class_mapping.

(** [{str(class_labels[i]): float(prediction_proba[i]) for i in indices}],
    continuing from the entries [acc] already made. *)
Fixpoint proba_dict_from (class_labels : list string) (prediction_proba : list Q)
    (indices : list nat) (acc : list (string * Q))
  : Try PyException (list (string * Q)) :=
  match indices with
  | [] => Ok acc
  | i :: indices' =>
      match class_labels !! i, prediction_proba !! i with
      | Some label, Some p =>
          proba_dict_from class_labels prediction_proba indices' (dict_set label p acc)
      | _, _ => Raise IndexError
      end
  end.

(** A lookup that raises [e] when there is nothing to return. *)
Definition or_raise {A} (e : PyException) (o : option A) : Try PyException A :=
  match o with
  | Some v => Ok v
  | None => Raise e
  end.

(** The body of the [try] block. *)
Definition evaluate_model_body (g : Globals) (input_data : PredictionInput)
  : Try PyException PredictionOutput :=
  let data := input_data in
  let* md := or_raise TypeError_None (metadata g) in
  let feature_names := feature_names md in
  let* X_sample := feature_vector data feature_names in
  let* sc := or_raise AttributeError_None (scaler g) in
  let* X_sample_scaled := scaler_transform sc X_sample in
  let* m := or_raise AttributeError_None (model g) in
  let* prediction := model_predict m X_sample_scaled in
  let* prediction_proba := model_predict_proba m X_sample_scaled in
  let class_mapping := json_loads (class_mapping md) in
  let reverse_mapping := reverse_mapping class_mapping in
  let* original_prediction :=
    or_raise (KeyError_int prediction) (reverse_mapping !! prediction) in
  let class_labels := sorted (dict_keys class_mapping) in
  let* proba_dict :=
    proba_dict_from class_labels prediction_proba (seq 0 (length class_labels)) [] in
  let* predicted := py_int original_prediction in
  let* conf := py_max prediction_proba in
  Ok {| predicted_class := predicted;
        prediction_probabilities := proba_dict;
        confidence := conf |}.

Definition evaluate_model (g : Globals) (input_data : PredictionInput)
  : Try HTTPException PredictionOutput :=
  match evaluate_model_body g input_data with
  | Ok result => Ok result
  | Raise e => Raise (HTTPError 500 (ErrorDuringPrediction e))
  end.

(** ** Endpoints *)

Inductive Health : Type := unhealthy | healthy.

Definition is_None {A} (o : option A) : bool :=
  match o with None => true | Some _ => false end.

(** [model is None or scaler is None or metadata is None] *)
Definition not_loaded (g : Globals) : bool :=
  is_None (model g) || is_None (scaler g) || is_None (metadata g).

Definition health_check (g : Globals) : Health :=
  if not_loaded g then unhealthy else healthy.

(** [predict]: the second component of the state is the list of the calls
    handed to the executor by [loop.run_in_executor], oldest first. *)
Definition predict (g : Globals) (executor : list PredictionInput)
    (input_data : PredictionInput)
  : Try HTTPException PredictionOutput * list PredictionInput :=
  if not_loaded g then
    (Raise (HTTPError 503 ModelComponentsNotLoaded), executor)
  else
    let executor' := executor ++ [input_data] in
    match evaluate_model g input_data with
    | Ok result => (Ok result, executor')
    | Raise e => (Raise (HTTPError 500 (PredictionFailed e)), executor')
    end.

(** ** Loading *)

(** What reading one artifact file does: it raises, or it returns an object,
    which is [None] when the file holds a null. *)
Inductive Loaded (A : Type) : Type :=
| Raises
| Returns (v : option A).
Arguments Raises {A}.
Arguments Returns {A} v.

Record ModelDir : Type := {
  xgboost_model_pkl : Loaded Model;
  scaler_pkl : Loaded Scaler;
  model_metadata_json : Loaded Metadata
}.

Definition set_model (v : option Model) (g : Globals) : Globals :=
  {| model := v; scaler := scaler g; metadata := metadata g |}.
Definition set_scaler (v : option Scaler) (g : Globals) : Globals :=
  {| model := model g; scaler := v; metadata := metadata g |}.
Definition set_metadata (v : option Metadata) (g : Globals) : Globals :=
  {| model := model g; scaler := scaler g; metadata := v |}.

(** [load_model_components]: the three assignments in order; an exception
    at any of them ends the function with [False], keeping the assignments
    already made. *)
Definition load_model_components (dir : ModelDir) (g : Globals) : bool * Globals :=
  match xgboost_model_pkl dir with
  | Raises => (false, g)
  | Returns m =>
      let g := set_model m g in
      match scaler_pkl dir with
      | Raises => (false, g)
      | Returns s =>
          let g := set_scaler s g in
          match model_metadata_json dir with
          | Raises => (false, g)
          | Returns md => (true, set_metadata md g)
          end
      end
  end.

(** *** The service as a transition system

    The load runs assignment by assignment; the readers ([health_check],
    [predict]) may run between any two of them. *)

Inductive LoadPc : Type :=
| AtModel            (* before [model = joblib.load(model_path)] *)
| AtScaler           (* before [scaler = joblib.load(scaler_path)] *)
| AtMetadata         (* before [metadata = json.load(f)] *)
| Returned (success : bool).

Record Service : Type := {
  pc : LoadPc;
  globals : Globals;
  executor : list PredictionInput
}.

Definition startup : Service :=
  {| pc := AtModel; globals := unloaded; executor := [] |}.

Definition load_step (dir : ModelDir) (s : Service) : option Service :=
  let next pc' g' := Some {| pc := pc'; globals := g'; executor := executor s |} in
  match pc s with
  | AtModel =>
      match xgboost_model_pkl dir with
      | Raises => next (Returned false) (globals s)
      | Returns m => next AtScaler (set_model m (globals s))
      end
  | AtScaler =>
      match scaler_pkl dir with
      | Raises => next (Returned false) (globals s)
      | Returns sc => next AtMetadata (set_scaler sc (globals s))
      end
  | AtMetadata =>
      match model_metadata_json dir with
      | Raises => next (Returned false) (globals s)
      | Returns md => next (Returned true) (set_metadata md (globals s))
      end
  | Returned _ => None
  end.

Inductive Event : Type :=
| Load
| HealthCheck (answer : Health)
| Predict (input_data : PredictionInput) (answer : Try HTTPException PredictionOutput).

Inductive step (dir : ModelDir) : Service → Event → Service → Prop :=
| step_load s s' :
    load_step dir s = Some s' →
    step dir s Load s'
| step_health_check s :
    step dir s (HealthCheck (health_check (globals s))) s
| step_predict s input_data :
    step dir s
      (Predict input_data (predict (globals s) (executor s) input_data).1)
      {| pc := pc s; globals := globals s;
         executor := (predict (globals s) (executor s) input_data).2 |}.

Inductive reachable (dir : ModelDir) : Service → Prop :=
| reachable_startup : reachable dir startup
| reachable_step s ev s' :
    reachable dir s → step dir s ev s' → reachable dir s'.

(** ** Concrete artifacts *)

(** [numpy.argmax]: the first index holding the maximum. *)
Fixpoint argmax_from (best_i : nat) (best : Q) (i : nat) (xs : list Q) : nat :=
  match xs with
  | [] => best_i
  | x :: xs' =>
      if Qle_bool x best then argmax_from best_i best (S i) xs'
      else argmax_from i x (S i) xs'
  end.

Definition argmax (xs : list Q) : option nat :=
  match xs with
  | [] => None
  | x :: xs' => Some (argmax_from 0 x 1 xs')
  end.

(** A classifier whose probability vector does not depend on the input and
    whose [predict] is the first index of the maximum probability. *)
Definition constant_classifier (proba : list Q) : Model :=
  {| model_predict := λ _,
       match argmax proba with
       | Some i => Ok (Z.of_nat i)
       | None => Raise (LibraryError "empty probability vector")
       end;
     model_predict_proba := λ _, Ok proba |}.

(** Modelled from the spec: the scaler's [transform] (section 4.3), which the
    source takes from the unpickled scaler object:
    [(vector[i] - center[i]) / scale[i]] elementwise, failing when the
    lengths differ. *)
Definition standard_scaler (center scale : list Q) : Scaler :=
  {| scaler_transform := λ X,
       if decide (length X = length center ∧ length X = length scale)
       then Ok (zip_with (λ x cs, (x - cs.1) / cs.2)%Q X (zip center scale))
       else Raise (LibraryError "dimension mismatch") |}.

Definition loaded (m : Model) (sc : Scaler) (md : Metadata) : Globals :=
  {| model := Some m; scaler := Some sc; metadata := Some md |}.

(** The value bound to [original_prediction] (line 191): everything
    [evaluate_model] does up to and including [reverse_mapping[prediction]]. *)
Definition original_prediction (g : Globals) (input_data : PredictionInput)
  : Try PyException string :=
  let* md := or_raise TypeError_None (metadata g) in
  let* X_sample := feature_vector input_data (feature_names md) in
  let* sc := or_raise AttributeError_None (scaler g) in
  let* X_sample_scaled := scaler_transform sc X_sample in
  let* m := or_raise AttributeError_None (model g) in
  let* prediction := model_predict m X_sample_scaled in
  let* _ := model_predict_proba m X_sample_scaled in
  or_raise (KeyError_int prediction)
    (reverse_mapping (json_loads (class_mapping md)) !! prediction).

(** The globals hold exactly the three objects found in the model
    directory. *)
Definition published (dir : ModelDir) (g : Globals) : Prop :=
  ∃ m sc md,
    g = loaded m sc md ∧
    xgboost_model_pkl dir = Returns (Some m) ∧
    scaler_pkl dir = Returns (Some sc) ∧
    model_metadata_json dir = Returns (Some md).

(** [load_step] until the function returns. *)
Fixpoint load_run (dir : ModelDir) (fuel : nat) (s : Service) : Service :=
  match fuel with
  | O => s
  | S fuel' =>
      match load_step dir s with
      | Some s' => load_run dir fuel' s'
      | None => s
      end
  end.

(** What the globals hold at each point of the load. *)
Definition load_invariant (dir : ModelDir) (s : Service) : Prop :=
  match pc s with
  | AtModel => globals s = unloaded
  | AtScaler =>
      ∃ m, xgboost_model_pkl dir = Returns m ∧
           globals s = set_model m unloaded
  | AtMetadata =>
      ∃ m sc, xgboost_model_pkl dir = Returns m ∧
              scaler_pkl dir = Returns sc ∧
              globals s = set_scaler sc (set_model m unloaded)
  | Returned true =>
      ∃ m sc md, xgboost_model_pkl dir = Returns m ∧
                 scaler_pkl dir = Returns sc ∧
                 model_metadata_json dir = Returns md ∧
                 globals s = set_metadata md (set_scaler sc (set_model m unloaded))
  | Returned false => metadata (globals s) = None
  end.

(** *** Scenarios *)

(** The example request of [PredictionInput.Config]. *)
Definition example_input : PredictionInput :=
  list_to_map (zip PredictionInput_fields
    [55; 2; 6750; 33; 32; 22; 2; 0; 14; 66; 0; 0; 0; 0; 0; 0; 0; 0;
     0; 0; 0; 0; 0; 0; 0; 0; 0; 1; 0; 0; 1; 0; 0; 1; 0; 0]%Q).

Definition identity_scaler (n : nat) : Scaler :=
  standard_scaler (replicate n 0%Q) (replicate n 1%Q).

(** The scenario of section 8 of the specification: two features, the
    identity scaler, a classifier returning [0.3, 0.7].  The request is a
    request of the schema: the two features are its fields feat1 = 1 and
    feat2 = 2, the other fields are those of the example request. *)
Definition scenario_input : PredictionInput :=
  <["feat1" := 1%Q]> (<["feat2" := 2%Q]> example_input).

Definition scenario_globals (class_mapping : list (string * Z)) : Globals :=
  loaded (constant_classifier [0.3; 0.7]%Q)
         (standard_scaler [0; 0]%Q [1; 1]%Q)
         {| feature_names := ["feat1"; "feat2"]; class_mapping := class_mapping |}.

(** The same bundle with the feature names as the specification writes
    them, f1 and f2, which are not fields of the request schema. *)
Definition stated_scenario_globals (class_mapping : list (string * Z)) : Globals :=
  loaded (constant_classifier [0.3; 0.7]%Q)
         (standard_scaler [0; 0]%Q [1; 1]%Q)
         {| feature_names := ["f1"; "f2"]; class_mapping := class_mapping |}.


(** Two classes, 2 and 10, encoded in increasing order as 0 and 1; every
    request field is a feature. *)
Definition two_ten_metadata : Metadata :=
  {| feature_names := PredictionInput_fields;
     class_mapping := [("2", 0); ("10", 1)] |}.

Definition two_ten_globals : Globals :=
  loaded (constant_classifier [0.3; 0.7]%Q) (identity_scaler 36) two_ten_metadata.

(** A model directory holding the three artifacts of [two_ten_globals]. *)
Definition two_ten_dir : ModelDir :=
  {| xgboost_model_pkl := Returns (Some (constant_classifier [0.3; 0.7]%Q));
     scaler_pkl := Returns (Some (identity_scaler 36));
     model_metadata_json := Returns (Some two_ten_metadata) |}.

(** *** Well-paired bundles *)

(** The classifier returns one probability per class of the class mapping. *)
Definition one_probability_per_class (m : Model) (md : Metadata) : Prop :=
  ∀ X proba, model_predict_proba m X = Ok proba →
    length proba = length (json_loads (class_mapping md)).

(** The encoded index of every class is its position among the sorted
    labels. *)
Definition encoded_in_sorted_order (class_mapping : list (string * Z)) : Prop :=
  ∀ (i : nat) label,
    sorted (dict_keys class_mapping) !! i = Some label →
    dict_get label class_mapping = Some (Z.of_nat i).

(** [model.predict] is the first index of the maximum of
    [model.predict_proba]. *)
Definition predict_is_argmax (m : Model) : Prop :=
  ∀ X proba, model_predict_proba m X = Ok proba →
    ∃ i, argmax proba = Some i ∧ model_predict m X = Ok (Z.of_nat i).

(** * Properties *)

(** ** Outcomes *)

Lemma try_bind_Ok {E A B} (m : Try E A) (k : A → Try E B) b :
  try_bind m k = Ok b ↔ ∃ a, m = Ok a ∧ k a = Ok b.
Proof.
  destruct m as [a|e]; simpl; split.
  - eauto.
  - by intros (? & [= ->] & ?).
  - done.
  - by intros (? & ? & ?).
Qed.

Lemma or_raise_Ok {A} e (o : option A) v : or_raise e o = Ok v ↔ o = Some v.
Proof. destruct o; simpl; split; congruence. Qed.

(** ** Dictionaries *)

Section dict_facts.
Context {K V : Type} `{EqDecision K}.
Implicit Types (d : list (K * V)) (k : K) (v : V).

Lemma dict_set_fresh k v d : k ∉ dict_keys d → dict_set k v d = d ++ [(k, v)].
Proof.
  induction d as [|[k' v'] d IH]; simpl; [done|].
  rewrite not_elem_of_cons. intros [Hne Hnotin].
  rewrite decide_False by done. by rewrite IH.
Qed.

Lemma dict_keys_set_old k v d : k ∈ dict_keys d → dict_keys (dict_set k v d) = dict_keys d.
Proof.
  unfold dict_keys.
  induction d as [|[k' v'] d IH]; simpl.
  - by intros ?%elem_of_nil.
  - intros [->|Hin]%elem_of_cons.
    + by rewrite decide_True.
    + case_decide; simpl; [by subst|]. f_equal. by apply IH.
Qed.

Lemma dict_set_NoDup k v d : NoDup (dict_keys d) → NoDup (dict_keys (dict_set k v d)).
Proof.
  intros Hd. destruct (decide (k ∈ dict_keys d)) as [Hin|Hnotin].
  - by rewrite dict_keys_set_old.
  - rewrite dict_set_fresh by done. unfold dict_keys in *. rewrite fmap_app.
    apply NoDup_app. split_and!; [done| |apply NoDup_singleton].
    intros x Hx ->%list_elem_of_singleton. done.
Qed.

Lemma dict_of_items_NoDup (items : list (K * V)) : NoDup (dict_keys (dict_of_items items)).
Proof.
  unfold dict_of_items.
  assert (∀ d, NoDup (dict_keys d) →
    NoDup (dict_keys (foldl (λ d kv, dict_set kv.1 kv.2 d) d items))) as Hgen.
  { induction items as [|[k v] items IH]; simpl; [done|].
    intros d Hd. apply IH. by apply dict_set_NoDup. }
  apply Hgen. constructor.
Qed.

Lemma dict_get_elem_of k v d : dict_get k d = Some v → (k, v) ∈ d.
Proof.
  induction d as [|[k' v'] d IH]; simpl; [done|].
  case_decide as Hk.
  - intros [= ->]. subst. apply list_elem_of_here.
  - intros ?. apply list_elem_of_further. auto.
Qed.

Lemma elem_of_dict_get k v d : NoDup (dict_keys d) → (k, v) ∈ d → dict_get k d = Some v.
Proof.
  induction d as [|[k' v'] d IH]; simpl.
  - by intros _ ?%elem_of_nil.
  - intros [Hnotin Hd]%NoDup_cons [[= -> ->]|Hin]%elem_of_cons.
    + by rewrite decide_True.
    + rewrite decide_False; [by apply IH|].
      intros ->. apply Hnotin. unfold dict_keys.
      apply list_elem_of_fmap. by exists (k', v).
Qed.
End dict_facts.

(** ** [max] *)

Lemma py_max_foldl (m : Q) (rest : list Q) :
  let c := foldl (λ m y, if Qle_bool y m then m else y) m rest in
  (c = m ∨ c ∈ rest) ∧ (m <= c)%Q ∧ Forall (λ x, (x <= c)%Q) rest.
Proof.
  revert m. induction rest as [|y rest IH]; intros m; simpl.
  - split_and!; [by left|apply Qle_refl|constructor].
  - destruct (Qle_bool y m) eqn:Hle.
    + apply Qle_bool_iff in Hle.
      destruct (IH m) as (Hc & Hm & Hrest). split_and!.
      * destruct Hc as [->|Hc]; [by left|right; by apply list_elem_of_further].
      * done.
      * constructor; [by eapply Qle_trans|done].
    + assert (m < y)%Q as Hlt.
      { apply Qnot_le_lt. intros Hle'%Qle_bool_iff. congruence. }
      destruct (IH y) as (Hc & Hy & Hrest). split_and!.
      * right. destruct Hc as [->|Hc];
          [apply list_elem_of_here|by apply list_elem_of_further].
      * eapply Qle_trans; [by apply Qlt_le_weak|done].
      * by constructor.
Qed.

Lemma py_max_Ok (xs : list Q) (c : Q) :
  py_max xs = Ok c → c ∈ xs ∧ Forall (λ x, (x <= c)%Q) xs.
Proof.
  destruct xs as [|x rest]; simpl; [done|]. intros [= <-].
  destruct (py_max_foldl x rest) as (Hc & Hx & Hrest). split.
  - destruct Hc as [->|Hc]; [apply list_elem_of_here|by apply list_elem_of_further].
  - by constructor.
Qed.

(** ** The probability dictionary *)

Lemma proba_dict_from_seq (class_labels : list string) (prediction_proba : list Q)
    (n s : nat) :
  NoDup class_labels →
  (s + n = length class_labels)%nat →
  (length class_labels ≤ length prediction_proba)%nat →
  proba_dict_from class_labels prediction_proba (seq s n)
      (take s (zip class_labels prediction_proba))
    = Ok (zip class_labels prediction_proba).
Proof.
  intros Hnodup. revert s. induction n as [|n IH]; intros s Hs Hlen; simpl.
  - rewrite take_ge; [done|]. rewrite length_zip. lia.
  - destruct (lookup_lt_is_Some_2 class_labels s) as [label Hlabel]; [lia|].
    destruct (lookup_lt_is_Some_2 prediction_proba s) as [p Hp]; [lia|].
    rewrite Hlabel, Hp.
    assert (zip class_labels prediction_proba !! s = Some (label, p)) as Hzip.
    { apply lookup_zip_with_Some. eauto. }
    rewrite dict_set_fresh.
    + rewrite <-(take_S_r _ _ _ Hzip). apply IH; lia.
    + unfold dict_keys. rewrite list_elem_of_fmap.
      intros ([label' p'] & -> & (i & Hi & Hlt)%elem_of_take). simpl in *.
      apply lookup_zip_with_Some in Hi as (? & ? & [= <- <-] & Hi & _).
      assert (i = s) by (by eapply NoDup_lookup). lia.
Qed.

Lemma proba_dict_from_range (class_labels : list string) (prediction_proba : list Q) :
  NoDup class_labels →
  (length class_labels ≤ length prediction_proba)%nat →
  proba_dict_from class_labels prediction_proba (seq 0 (length class_labels)) []
    = Ok (zip class_labels prediction_proba).
Proof.
  intros Hnodup Hlen.
  by apply (proba_dict_from_seq class_labels prediction_proba (length class_labels) 0).
Qed.

(** [sorted] returns its argument rearranged. *)
Lemma sorted_Permutation (l : list string) : sorted l ≡ₚ l.
Proof. apply merge_sort_Permutation. Qed.

Lemma class_labels_NoDup (members : list (string * Z)) :
  NoDup (sorted (dict_keys (json_loads members))).
Proof. rewrite sorted_Permutation. apply dict_of_items_NoDup. Qed.

Lemma class_labels_length (members : list (string * Z)) :
  length (sorted (dict_keys (json_loads members))) = length (json_loads members).
Proof.
  rewrite sorted_Permutation. unfold dict_keys. by rewrite length_fmap.
Qed.

(** ** The reverse mapping *)

Lemma reverse_mapping_foldl_other (l : list (string * Z)) (m : gmap Z string) v :
  v ∉ l.*2 →
  foldl (λ m kv, <[kv.2 := kv.1]> m) m l !! v = m !! v.
Proof.
  revert m. induction l as [|[k' v'] l IH]; intros m; simpl; [done|].
  rewrite not_elem_of_cons. intros [Hne Hnotin].
  rewrite IH by done. by rewrite lookup_insert_ne.
Qed.

Lemma reverse_mapping_foldl_elem_of (l : list (string * Z)) (m : gmap Z string) k v :
  NoDup l.*2 → (k, v) ∈ l →
  foldl (λ m kv, <[kv.2 := kv.1]> m) m l !! v = Some k.
Proof.
  revert m. induction l as [|[k' v'] l IH]; intros m; simpl.
  - by intros _ ?%elem_of_nil.
  - intros [Hnotin Hnodup]%NoDup_cons [[= -> ->]|Hin]%elem_of_cons.
    + rewrite reverse_mapping_foldl_other by done. apply lookup_insert_eq.
    + by apply IH.
Qed.

(** ** [evaluate_model] step by step *)

Ltac try_inv H :=
  repeat (apply try_bind_Ok in H as (? & ? & H));
  repeat match goal with
    | H' : or_raise _ _ = Ok _ |- _ => apply or_raise_Ok in H'
    end.

Lemma evaluate_model_body_Ok m sc md input_data result :
  evaluate_model_body (loaded m sc md) input_data = Ok result →
  ∃ X X_scaled prediction prediction_proba label proba_dict,
    feature_vector input_data (feature_names md) = Ok X ∧
    scaler_transform sc X = Ok X_scaled ∧
    model_predict m X_scaled = Ok prediction ∧
    model_predict_proba m X_scaled = Ok prediction_proba ∧
    reverse_mapping (json_loads (class_mapping md)) !! prediction = Some label ∧
    proba_dict_from (sorted (dict_keys (json_loads (class_mapping md))))
      prediction_proba
      (seq 0 (length (sorted (dict_keys (json_loads (class_mapping md)))))) []
      = Ok proba_dict ∧
    py_int label = Ok (predicted_class result) ∧
    py_max prediction_proba = Ok (confidence result) ∧
    prediction_probabilities result = proba_dict.
Proof.
  unfold evaluate_model_body, loaded. simpl. intros H. try_inv H.
  injection H as <-. simplify_eq/=. eauto 15.
Qed.

Lemma evaluate_model_Ok g input_data result :
  evaluate_model g input_data = Ok result ↔
  evaluate_model_body g input_data = Ok result.
Proof.
  unfold evaluate_model. destruct (evaluate_model_body g input_data); naive_solver.
Qed.

Lemma evaluate_model_Raise g input_data e :
  evaluate_model g input_data = Raise e →
  ∃ cause, e = HTTPError 500 (ErrorDuringPrediction cause) ∧
           evaluate_model_body g input_data = Raise cause.
Proof.
  unfold evaluate_model. destruct (evaluate_model_body g input_data); naive_solver.
Qed.

Lemma predict_loaded m sc md pool input_data :
  predict (loaded m sc md) pool input_data =
    (match evaluate_model (loaded m sc md) input_data with
     | Ok result => Ok result
     | Raise e => Raise (HTTPError 500 (PredictionFailed e))
     end, pool ++ [input_data]).
Proof.
  unfold predict. simpl.
  by destruct (evaluate_model (loaded m sc md) input_data).
Qed.

Lemma original_prediction_body m sc md input_data label :
  original_prediction (loaded m sc md) input_data = Ok label →
  ∃ prediction_proba,
    evaluate_model_body (loaded m sc md) input_data =
      let class_labels := sorted (dict_keys (json_loads (class_mapping md))) in
      let* proba_dict :=
        proba_dict_from class_labels prediction_proba (seq 0 (length class_labels)) [] in
      let* predicted := py_int label in
      let* conf := py_max prediction_proba in
      Ok {| predicted_class := predicted;
            prediction_probabilities := proba_dict;
            confidence := conf |}.
Proof.
  unfold original_prediction, evaluate_model_body, loaded. simpl. intros H.
  try_inv H. simplify_eq/=.
  match goal with H' : model_predict_proba _ _ = Ok ?p |- _ => exists p end.
  repeat match goal with H' : _ = Ok _ |- _ => rewrite H'; simpl end.
  by rewrite H.
Qed.

Lemma proba_dict_from_Raise class_labels prediction_proba indices acc e :
  proba_dict_from class_labels prediction_proba indices acc = Raise e →
  e = IndexError.
Proof.
  revert acc. induction indices as [|i indices IH]; intros acc; simpl; [done|].
  destruct (class_labels !! i); [|congruence].
  destruct (prediction_proba !! i); [|congruence].
  apply IH.
Qed.

Lemma feature_vector_missing (data : gmap string Q) (names : list string) absent :
  absent ∈ names → data !! absent = None →
  ∃ key present rest,
    names = present ++ key :: rest ∧
    Forall (λ k, is_Some (data !! k)) present ∧
    data !! key = None ∧
    feature_vector data names = Raise (KeyError_str key).
Proof.
  induction names as [|feat names IH]; simpl.
  - by intros ?%elem_of_nil.
  - intros Hin Habsent. destruct (data !! feat) as [x|] eqn:Hfeat.
    + assert (absent ∈ names) as Hin'.
      { apply elem_of_cons in Hin as [->|?]; [congruence|done]. }
      destruct (IH Hin' Habsent) as (key & present & rest & -> & Hpresent & Hkey & ->).
      exists key, (feat :: present), rest. split_and!; try done.
      constructor; [by eexists|done].
    + exists feat, [], names. split_and!; first [done|constructor].
Qed.

(** ** Bundles whose encoding follows the sorted labels *)

Lemma dict_get_zip (class_labels : list string) (proba : list Q) (i : nat) label :
  NoDup class_labels →
  class_labels !! i = Some label →
  dict_get label (zip class_labels proba) = proba !! i.
Proof.
  revert proba i. induction class_labels as [|l class_labels IH]; intros proba i; [done|].
  intros [Hnotin Hnodup]%NoDup_cons Hi. destruct proba as [|p proba].
  - by destruct i.
  - destruct i as [|i]; simpl in *.
    + injection Hi as ->. by rewrite decide_True.
    + rewrite decide_False; [by apply IH|].
      intros ->. apply Hnotin. by eapply list_elem_of_lookup_2.
Qed.

Lemma reverse_mapping_foldl_Some (l : list (string * Z)) (m : gmap Z string) k v :
  foldl (λ m kv, <[kv.2 := kv.1]> m) m l !! v = Some k →
  (k, v) ∈ l ∨ m !! v = Some k.
Proof.
  revert m. induction l as [|[k' v'] l IH]; intros m; simpl; [by right|].
  intros [Hin|Hm]%IH.
  - left. by apply list_elem_of_further.
  - destruct (decide (v' = v)) as [->|Hne].
    + rewrite lookup_insert_eq in Hm. injection Hm as ->. left. apply list_elem_of_here.
    + rewrite lookup_insert_ne in Hm by done. by right.
Qed.

Lemma reverse_mapping_Some (class_mapping : list (string * Z)) label index :
  reverse_mapping class_mapping !! index = Some label →
  (label, index) ∈ class_mapping.
Proof.
  intros [Hin|Hempty]%reverse_mapping_foldl_Some; [done|].
  by rewrite lookup_empty in Hempty.
Qed.

Lemma argmax_from_lookup (xs : list Q) (best_i : nat) (best : Q) (i : nat) :
  let c := foldl (λ m y, if Qle_bool y m then m else y) best xs in
  let j := argmax_from best_i best i xs in
  (j = best_i ∧ c = best) ∨ ((i ≤ j)%nat ∧ xs !! (j - i)%nat = Some c).
Proof.
  revert best_i best i. induction xs as [|x xs IH]; intros best_i best i; simpl.
  - by left.
  - destruct (Qle_bool x best).
    + destruct (IH best_i best (S i)) as [?|[Hle Hlookup]]; [by left|right].
      split; [lia|]. by replace (argmax_from best_i best (S i) xs - i)%nat
        with (S (argmax_from best_i best (S i) xs - S i)) by lia.
    + right. destruct (IH i x (S i)) as [[-> ->]|[Hle Hlookup]].
      * split; [lia|]. by rewrite Nat.sub_diag.
      * split; [lia|]. by replace (argmax_from i x (S i) xs - i)%nat
          with (S (argmax_from i x (S i) xs - S i)) by lia.
Qed.

(** The probability at [argmax] is the value [max] returns. *)
Lemma argmax_py_max (xs : list Q) (i : nat) (c : Q) :
  argmax xs = Some i → py_max xs = Ok c → xs !! i = Some c.
Proof.
  destruct xs as [|x xs]; simpl; [done|]. intros [= <-] [= <-].
  destruct (argmax_from_lookup xs 0 x 1) as [[-> ->]|[Hle Hlookup]]; [done|].
  destruct (argmax_from 0 x 1 xs) as [|j]; [lia|].
  simpl in Hlookup. by rewrite Nat.sub_0_r in Hlookup.
Qed.

Lemma sorted_position (class_mapping : list (string * Z)) label index :
  NoDup (dict_keys class_mapping) →
  dict_get label class_mapping = Some index →
  ∃ i : nat, sorted (dict_keys class_mapping) !! i = Some label.
Proof.
  intros _ Hget%dict_get_elem_of. apply list_elem_of_lookup_1.
  rewrite sorted_Permutation. unfold dict_keys.
  apply list_elem_of_fmap. by exists (label, index).
Qed.

(** Away from the defect met by C1 and C3: when every class is encoded by its
    position among the sorted labels, the returned mapping lists the sorted
    labels and gives each label the probability of its encoded index. *)
Lemma probabilities_of_encoded_index m sc md pool input_data result :
  one_probability_per_class m md →
  encoded_in_sorted_order (json_loads (class_mapping md)) →
  (predict (loaded m sc md) pool input_data).1 = Ok result →
  ∃ X X_scaled prediction_proba,
    feature_vector input_data (feature_names md) = Ok X ∧
    scaler_transform sc X = Ok X_scaled ∧
    model_predict_proba m X_scaled = Ok prediction_proba ∧
    dict_keys (prediction_probabilities result)
      = sorted (dict_keys (json_loads (class_mapping md))) ∧
    ∀ label index,
      dict_get label (json_loads (class_mapping md)) = Some index →
      dict_get label (prediction_probabilities result)
        = prediction_proba !! Z.to_nat index.
Proof.
  intros Harity Horder. rewrite predict_loaded. simpl.
  destruct (evaluate_model (loaded m sc md) input_data) as [r|e] eqn:Heval; [|done].
  intros [= ->].
  apply evaluate_model_Ok, evaluate_model_body_Ok in Heval
    as (X & Xs & prediction & proba & label & pd
        & HX & HXs & _ & Hproba & _ & Hpd & _ & _ & ->).
  exists X, Xs, proba. split_and!; try done.
  - apply Harity in Hproba. rewrite proba_dict_from_range in Hpd.
    + injection Hpd as <-. unfold dict_keys at 1. apply fst_zip.
      rewrite class_labels_length. lia.
    + apply class_labels_NoDup.
    + rewrite class_labels_length. lia.
  - intros label' index Hget.
    destruct (sorted_position _ _ _ (dict_of_items_NoDup _) Hget) as [i Hi].
    pose proof (Horder i label' Hi) as Hget'.
    assert (index = Z.of_nat i) as -> by congruence. rewrite Nat2Z.id.
    apply Harity in Hproba. rewrite proba_dict_from_range in Hpd.
    + injection Hpd as <-. apply dict_get_zip; [apply class_labels_NoDup|done].
    + apply class_labels_NoDup.
    + rewrite class_labels_length. lia.
Qed.

(** Under the same condition, and when [model.predict] is the first index of
    the maximum probability, the label whose integer value is the predicted
    class is a key of the returned mapping and holds the confidence. *)
Lemma predicted_class_holds_confidence m sc md pool input_data result :
  one_probability_per_class m md →
  encoded_in_sorted_order (json_loads (class_mapping md)) →
  predict_is_argmax m →
  (predict (loaded m sc md) pool input_data).1 = Ok result →
  ∃ label,
    original_prediction (loaded m sc md) input_data = Ok label ∧
    py_int label = Ok (predicted_class result) ∧
    dict_get label (prediction_probabilities result) = Some (confidence result).
Proof.
  intros Harity Horder Hargmax Hresult.
  destruct (probabilities_of_encoded_index _ _ _ _ _ _ Harity Horder Hresult)
    as (X & Xs & proba & HX & HXs & Hproba & _ & Hdict).
  rewrite predict_loaded in Hresult. simpl in Hresult.
  destruct (evaluate_model (loaded m sc md) input_data) as [r|e] eqn:Heval; [|done].
  injection Hresult as ->.
  apply evaluate_model_Ok, evaluate_model_body_Ok in Heval
    as (X' & Xs' & prediction & proba' & label & pd
        & HX' & HXs' & Hpred & Hproba' & Hlabel & _ & Hint & Hmax & _).
  assert (X' = X) as -> by congruence.
  assert (Xs' = Xs) as -> by congruence.
  assert (proba' = proba) as -> by congruence.
  destruct (Hargmax _ _ Hproba) as (i & Hi & Hpred').
  assert (prediction = Z.of_nat i) as -> by congruence.
  exists label. split_and!; [|done|].
  - unfold original_prediction, loaded. simpl.
    rewrite HX. simpl. rewrite HXs. simpl. rewrite Hpred. simpl.
    rewrite Hproba. simpl. by rewrite Hlabel.
  - apply reverse_mapping_Some in Hlabel.
    apply elem_of_dict_get in Hlabel; [|apply dict_of_items_NoDup].
    rewrite (Hdict _ _ Hlabel), Nat2Z.id. by apply argmax_py_max.
Qed.

Lemma example_input_valid : PredictionInput_valid example_input.
Proof.
  intros k. unfold example_input.
  rewrite <-not_eq_None_Some, <-not_elem_of_list_to_map.
  rewrite fst_zip by (simpl; lia). split; [apply dec_stable|auto].
Qed.

Lemma constant_classifier_argmax (proba : list Q) :
  proba ≠ [] → predict_is_argmax (constant_classifier proba).
Proof.
  intros Hne X proba' [= <-]. simpl.
  destruct (argmax proba) as [i|] eqn:Hi; [by exists i|].
  by destruct proba.
Qed.

(** The conditions hold for the classes 1 and 2 encoded as 0 and 1, and the
    order condition fails for the classes 2 and 10. *)
Lemma one_two_in_sorted_order :
  encoded_in_sorted_order (json_loads [("1", 0); ("2", 1)]).
Proof.
  intros i label.
  change (sorted (dict_keys (json_loads [("1", 0); ("2", 1)]))) with ["1"; "2"].
  destruct i as [|[|i]]; simpl; [intros [= <-]; reflexivity..|done].
Qed.

Lemma two_ten_not_in_sorted_order :
  ¬ encoded_in_sorted_order (json_loads (class_mapping two_ten_metadata)).
Proof. intros Horder. by specialize (Horder 0%nat "10" eq_refl). Qed.

(** ** The load and its readers *)

Lemma load_run_load_model_components dir :
  pc (load_run dir 3 startup) = Returned (load_model_components dir unloaded).1 ∧
  globals (load_run dir 3 startup) = (load_model_components dir unloaded).2.
Proof.
  unfold load_model_components, load_run, load_step, startup. simpl.
  destruct (xgboost_model_pkl dir); simpl; [done|].
  destruct (scaler_pkl dir); simpl; [done|].
  by destruct (model_metadata_json dir).
Qed.

Lemma load_run_reachable dir fuel s : reachable dir s → reachable dir (load_run dir fuel s).
Proof.
  revert s. induction fuel as [|fuel IH]; intros s Hs; simpl; [done|].
  destruct (load_step dir s) as [s'|] eqn:Hstep; [|done].
  apply IH. eapply reachable_step; [done|]. by apply step_load.
Qed.

Lemma load_step_invariant dir s s' :
  load_invariant dir s → load_step dir s = Some s' → load_invariant dir s'.
Proof.
  unfold load_invariant, load_step. destruct s as [pc0 g ex]. simpl.
  destruct pc0 as [| | |b]; [| | |done].
  - intros ->. destruct (xgboost_model_pkl dir) as [|m] eqn:Hm; intros [= <-]; simpl.
    + done.
    + by exists m.
  - intros (m & Hm & ->).
    destruct (scaler_pkl dir) as [|sc] eqn:Hsc; intros [= <-]; simpl.
    + done.
    + by exists m, sc.
  - intros (m & sc & Hm & Hsc & ->).
    destruct (model_metadata_json dir) as [|md] eqn:Hmd; intros [= <-]; simpl.
    + done.
    + by exists m, sc, md.
Qed.

Lemma reachable_load_invariant dir s : reachable dir s → load_invariant dir s.
Proof.
  induction 1 as [|s ev s' _ IH Hstep]; [done|].
  destruct Hstep as [s s' Hload| |]; [|done|done].
  by eapply load_step_invariant.
Qed.

Lemma loaded_published dir s :
  load_invariant dir s → not_loaded (globals s) = false →
  pc s = Returned true ∧ published dir (globals s).
Proof.
  unfold load_invariant, not_loaded, published.
  destruct s as [pc0 g ex]. simpl.
  destruct pc0 as [| | |[|]].
  - by intros ->.
  - by intros (m & _ & ->); simpl; rewrite !orb_true_r.
  - by intros (m & sc & _ & _ & ->); simpl; rewrite !orb_true_r.
  - intros (m & sc & md & Hm & Hsc & Hmd & ->). simpl.
    destruct m as [m|], sc as [sc|], md as [md|]; try done.
    intros _. split; [done|]. by exists m, sc, md.
  - intros ->. by rewrite !orb_true_r.
Qed.

Lemma step_reader_globals dir s ev s' :
  step dir s ev s' → ev ≠ Load → globals s' = globals s.
Proof. by destruct 1. Qed.

(** * The claims *)

(** C8. For a class mapping that is one-to-one (a dictionary has distinct
    keys; here the encoded indices are distinct too) and any original label
    [label] in it, looking up the label's encoded index in the reverse mapping
    built by [evaluate_model] gives back [label]: encoding then decoding is
    the identity. *)
Theorem reverse_mapping_decodes (class_mapping : list (string * Z)) label index :
  NoDup (dict_values class_mapping) →
  dict_get label class_mapping = Some index →
  reverse_mapping class_mapping !! index = Some label.
Proof.
  intros Hinj Hget. apply reverse_mapping_foldl_elem_of; [done|].
  by apply dict_get_elem_of.
Qed.

Lemma reverse_mapping_decodes_witness :
  reverse_mapping (json_loads [("A", 0); ("B", 1)]) !! 1 = Some "B".
Proof.
  apply reverse_mapping_decodes.
  - apply (bool_decide_unpack _). reflexivity.
  - reflexivity.
Defined.




(** C5. If any of [model], [scaler], [metadata] is not loaded, [predict]
    raises the HTTP 503 exception (service unavailable, "model components not
    loaded") and hands nothing to the executor: the list of submitted calls
    is unchanged. *)
Theorem predict_not_ready g pool input_data :
  model g = None ∨ scaler g = None ∨ metadata g = None →
  predict g pool input_data =
    (Raise (HTTPError 503 ModelComponentsNotLoaded), pool).
Proof.
  unfold predict, not_loaded. intros [H|[H|H]]; rewrite H; simpl.
  - done.
  - by destruct (model g).
  - by destruct (model g), (scaler g).
Qed.

Lemma predict_not_ready_witness :
  predict (set_scaler (Some (identity_scaler 36)) unloaded) [] example_input =
    (Raise (HTTPError 503 ModelComponentsNotLoaded), []).
Proof. apply predict_not_ready. left. reflexivity. Defined.

(** C6. If a name of [feature_names] is absent from the input record, the
    assembly of the feature vector raises [KeyError] naming the first absent
    name (the names before it are all present) and returns no vector;
    [evaluate_model] turns it into an HTTP 500 exception whose detail carries
    that [KeyError], and [predict], when the components are loaded, answers
    with HTTP 500, the internal-error status, not the status of a rejected
    request. *)
Theorem missing_feature_raises_KeyError g md pool input_data absent :
  metadata g = Some md →
  absent ∈ feature_names md →
  input_data !! absent = None →
  ∃ key present rest,
    feature_names md = present ++ key :: rest ∧
    Forall (λ k, is_Some (input_data !! k)) present ∧
    input_data !! key = None ∧
    feature_vector input_data (feature_names md) = Raise (KeyError_str key) ∧
    evaluate_model g input_data =
      Raise (HTTPError 500 (ErrorDuringPrediction (KeyError_str key))) ∧
    (not_loaded g = false →
     (predict g pool input_data).1 =
       Raise (HTTPError 500 (PredictionFailed
         (HTTPError 500 (ErrorDuringPrediction (KeyError_str key)))))).
Proof.
  intros Hmd Hin Habsent.
  destruct (feature_vector_missing input_data (feature_names md) absent Hin Habsent)
    as (key & present & rest & Hnames & Hpresent & Hkey & Hvec).
  exists key, present, rest.
  assert (evaluate_model g input_data =
            Raise (HTTPError 500 (ErrorDuringPrediction (KeyError_str key)))) as Heval.
  { unfold evaluate_model, evaluate_model_body. rewrite Hmd. simpl. by rewrite Hvec. }
  split_and!; try done.
  intros Hloaded. unfold predict. by rewrite Hloaded, Heval.
Qed.

Lemma missing_feature_raises_KeyError_witness :
  ∃ key present rest,
    ["feat1"; "f2"; "feat3"] = present ++ key :: rest ∧
    Forall (λ k, is_Some (example_input !! k)) present ∧
    example_input !! key = None ∧
    feature_vector example_input ["feat1"; "f2"; "feat3"] = Raise (KeyError_str key) ∧
    evaluate_model
      (loaded (constant_classifier [0.3; 0.7]%Q) (identity_scaler 3)
         {| feature_names := ["feat1"; "f2"; "feat3"];
            class_mapping := [("1", 0); ("2", 1)] |}) example_input =
      Raise (HTTPError 500 (ErrorDuringPrediction (KeyError_str key))) ∧
    (not_loaded
       (loaded (constant_classifier [0.3; 0.7]%Q) (identity_scaler 3)
          {| feature_names := ["feat1"; "f2"; "feat3"];
             class_mapping := [("1", 0); ("2", 1)] |}) = false →
     (predict
        (loaded (constant_classifier [0.3; 0.7]%Q) (identity_scaler 3)
           {| feature_names := ["feat1"; "f2"; "feat3"];
              class_mapping := [("1", 0); ("2", 1)] |}) [] example_input).1 =
       Raise (HTTPError 500 (PredictionFailed
         (HTTPError 500 (ErrorDuringPrediction (KeyError_str key)))))).
Proof.
  apply (missing_feature_raises_KeyError _
           {| feature_names := ["feat1"; "f2"; "feat3"];
              class_mapping := [("1", 0); ("2", 1)] |} [] example_input "f2").
  - reflexivity.
  - simpl. apply list_elem_of_further, list_elem_of_here.
  - reflexivity.
Defined.

(** C10. With the components loaded, a successful response carries as
    [predicted_class] the integer [int(original_prediction)], where
    [original_prediction] is the label decoded from the classifier's
    prediction; and whenever that label is not an integer literal, [predict]
    does not return a result: it raises the HTTP 500 "prediction failed"
    exception wrapping the HTTP 500 raised by [evaluate_model]. *)
Theorem predicted_class_is_int_of_label m sc md pool input_data :
  (∀ result,
     (predict (loaded m sc md) pool input_data).1 = Ok result →
     ∃ label,
       original_prediction (loaded m sc md) input_data = Ok label ∧
       py_int label = Ok (predicted_class result)) ∧
  (∀ label e,
     original_prediction (loaded m sc md) input_data = Ok label →
     py_int label = Raise e →
     ∃ cause,
       (cause = IndexError ∨ cause = ValueError_int label) ∧
       (predict (loaded m sc md) pool input_data).1 =
         Raise (HTTPError 500 (PredictionFailed
           (HTTPError 500 (ErrorDuringPrediction cause))))).
Proof.
  rewrite predict_loaded. simpl. split.
  - intros result Hres.
    destruct (evaluate_model (loaded m sc md) input_data) as [r|e] eqn:Heval; [|done].
    injection Hres as ->.
    apply evaluate_model_Ok, evaluate_model_body_Ok in Heval
      as (X & Xs & prediction & proba & label & pd
          & HX & HXs & Hpred & Hproba & Hlabel & _ & Hint & _).
    exists label. split; [|done].
    unfold original_prediction, loaded. simpl.
    rewrite HX. simpl. rewrite HXs. simpl. rewrite Hpred. simpl.
    rewrite Hproba. simpl. by rewrite Hlabel.
  - intros label e Hlabel Hint.
    destruct (original_prediction_body _ _ _ _ _ Hlabel) as [proba Hbody].
    unfold evaluate_model. rewrite Hbody. simpl.
    destruct (proba_dict_from _ proba _ _) as [pd|e'] eqn:Hpd; simpl.
    + rewrite Hint. simpl. exists e. split; [|done]. right.
      unfold py_int in Hint. destruct (int_literal _); congruence.
    + apply proba_dict_from_Raise in Hpd as ->. exists IndexError. eauto.
Qed.

Lemma predicted_class_is_int_of_label_witness :
  ∃ cause,
    (cause = IndexError ∨ cause = ValueError_int "B") ∧
    (predict (scenario_globals [("A", 0); ("B", 1)]) [] scenario_input).1 =
      Raise (HTTPError 500 (PredictionFailed
        (HTTPError 500 (ErrorDuringPrediction cause)))).
Proof.
  apply (proj2 (predicted_class_is_int_of_label _ _ _ [] scenario_input)
           "B" (ValueError_int "B")).
  - reflexivity.
  - reflexivity.
Defined.

(** C7. In every state the service can reach, however the readers are
    interleaved with the assignments of the load, a reader either finds the
    components not loaded ([health_check] answers unhealthy and [predict]
    raises HTTP 503 without touching the executor), or the load has returned
    successfully and the three globals hold exactly the three objects of the
    model directory.  No step other than a step of the load changes the
    globals, and once the components are loaded no step changes them. *)
Theorem readers_never_see_partial_bundle dir s :
  reachable dir s →
  ((health_check (globals s) = unhealthy ∧
    ∀ input_data,
      predict (globals s) (executor s) input_data =
        (Raise (HTTPError 503 ModelComponentsNotLoaded), executor s))
   ∨ (health_check (globals s) = healthy ∧
      pc s = Returned true ∧
      published dir (globals s))) ∧
  (∀ ev s', step dir s ev s' → ev ≠ Load → globals s' = globals s) ∧
  (not_loaded (globals s) = false →
   ∀ ev s', step dir s ev s' → globals s' = globals s).
Proof.
  intros Hinv%reachable_load_invariant. split_and!.
  - unfold health_check, predict.
    destruct (not_loaded (globals s)) eqn:Hloaded; [by left|right].
    split; [done|]. by apply loaded_published.
  - intros ev s'. apply step_reader_globals.
  - intros Hloaded ev s' Hstep.
    destruct (loaded_published dir s Hinv Hloaded) as [Hpc _].
    destruct Hstep as [s s' Hload| |]; [|done|done].
    unfold load_step in Hload. by rewrite Hpc in Hload.
Qed.

Lemma readers_never_see_partial_bundle_witness :
  let s := load_run two_ten_dir 3 startup in
  ((health_check (globals s) = unhealthy ∧
    ∀ input_data,
      predict (globals s) (executor s) input_data =
        (Raise (HTTPError 503 ModelComponentsNotLoaded), executor s))
   ∨ (health_check (globals s) = healthy ∧
      pc s = Returned true ∧
      published two_ten_dir (globals s))) ∧
  (∀ ev s', step two_ten_dir s ev s' → ev ≠ Load → globals s' = globals s) ∧
  (not_loaded (globals s) = false →
   ∀ ev s', step two_ten_dir s ev s' → globals s' = globals s).
Proof.
  apply (readers_never_see_partial_bundle two_ten_dir (load_run two_ten_dir 3 startup)).
  apply load_run_reachable, reachable_startup.
Defined.

(** ** The scenario of the specification *)

Lemma scenario_input_valid : PredictionInput_valid scenario_input.
Proof.
  intros k. unfold scenario_input.
  destruct (decide (k = "feat1")) as [->|Hne1].
  { rewrite lookup_insert_eq. split; [|by eexists].
    intros _. apply (bool_decide_unpack _). reflexivity. }
  rewrite lookup_insert_ne by done.
  destruct (decide (k = "feat2")) as [->|Hne2].
  { rewrite lookup_insert_eq. split; [|by eexists].
    intros _. apply (bool_decide_unpack _). reflexivity. }
  rewrite lookup_insert_ne by done. apply example_input_valid.
Qed.

(** A request of the schema has no field f1. *)
Lemma stated_scenario_raises_KeyError class_mapping pool input_data :
  PredictionInput_valid input_data →
  evaluate_model (stated_scenario_globals class_mapping) input_data =
    Raise (HTTPError 500 (ErrorDuringPrediction (KeyError_str "f1"))) ∧
  (predict (stated_scenario_globals class_mapping) pool input_data).1 =
    Raise (HTTPError 500 (PredictionFailed
      (HTTPError 500 (ErrorDuringPrediction (KeyError_str "f1"))))).
Proof.
  intros Hvalid.
  assert (input_data !! "f1" = None) as Hf1.
  { apply eq_None_not_Some. intros Hsome%Hvalid. revert Hsome.
    apply (bool_decide_unpack _). reflexivity. }
  assert (evaluate_model (stated_scenario_globals class_mapping) input_data =
    Raise (HTTPError 500 (ErrorDuringPrediction (KeyError_str "f1")))) as Heval.
  { unfold evaluate_model, evaluate_model_body, stated_scenario_globals, loaded.
    simpl. by rewrite Hf1. }
  split; [done|]. unfold stated_scenario_globals in *.
  rewrite predict_loaded. simpl. by rewrite Heval.
Qed.

(** C4, as stated.  With the feature names f1 and f2 of the scenario, which
    are not fields of a request, the request with feat1 = 1 and feat2 = 2 (and
    every other request of the schema, whatever the class labels) ends in
    HTTP 500 with [KeyError] 'f1'.  With the two features named after the
    request fields feat1 and feat2 but the class labels "A" and "B" of the
    scenario, [int("B")] raises: the request again ends in HTTP 500.  In
    neither case does [predict] return a result. *)
Lemma scenario_with_letter_labels_fails :
  evaluate_model (stated_scenario_globals [("A", 0); ("B", 1)]) scenario_input =
    Raise (HTTPError 500 (ErrorDuringPrediction (KeyError_str "f1"))) ∧
  (∀ class_mapping input_data,
     PredictionInput_valid input_data →
     (predict (stated_scenario_globals class_mapping) [] input_data).1 =
       Raise (HTTPError 500 (PredictionFailed
         (HTTPError 500 (ErrorDuringPrediction (KeyError_str "f1")))))) ∧
  evaluate_model (scenario_globals [("A", 0); ("B", 1)]) scenario_input =
    Raise (HTTPError 500 (ErrorDuringPrediction (ValueError_int "B"))) ∧
  (¬ ∃ result,
      (predict (stated_scenario_globals [("A", 0); ("B", 1)]) [] scenario_input).1
        = Ok result) ∧
  (¬ ∃ result,
      (predict (scenario_globals [("A", 0); ("B", 1)]) [] scenario_input).1
        = Ok result).
Proof.
  split_and!.
  - apply (stated_scenario_raises_KeyError _ []), scenario_input_valid.
  - intros class_mapping input_data Hvalid.
    by apply stated_scenario_raises_KeyError.
  - reflexivity.
  - intros [result Hresult].
    rewrite (proj2 (stated_scenario_raises_KeyError _ [] _ scenario_input_valid))
      in Hresult. discriminate.
  - intros [result Hresult]. vm_compute in Hresult. discriminate.
Qed.

(** C4, amended.  In the scenario with the two features named feat1 and
    feat2, fields of the request schema, the identity scaler, a classifier
    returning [0.3, 0.7] and the integer class labels "1" and "2" encoded as
    0 and 1, every request with feat1 = 1 and feat2 = 2 gets the result
    predicted_class = 2, prediction_probabilities = {"1": 0.3, "2": 0.7},
    confidence = 0.7, from [evaluate_model] and from [predict]. *)
Theorem scenario_with_integer_labels pool (input_data : PredictionInput) :
  input_data !! "feat1" = Some 1%Q →
  input_data !! "feat2" = Some 2%Q →
  evaluate_model (scenario_globals [("1", 0); ("2", 1)]) input_data =
    Ok {| predicted_class := 2;
          prediction_probabilities := [("1", 0.3%Q); ("2", 0.7%Q)];
          confidence := 0.7%Q |} ∧
  predict (scenario_globals [("1", 0); ("2", 1)]) pool input_data =
    (Ok {| predicted_class := 2;
           prediction_probabilities := [("1", 0.3%Q); ("2", 0.7%Q)];
           confidence := 0.7%Q |}, pool ++ [input_data]).
Proof.
  intros Hfeat1 Hfeat2.
  assert (evaluate_model (scenario_globals [("1", 0); ("2", 1)]) input_data =
    Ok {| predicted_class := 2;
          prediction_probabilities := [("1", 0.3%Q); ("2", 0.7%Q)];
          confidence := 0.7%Q |}) as Heval.
  { unfold evaluate_model, evaluate_model_body, scenario_globals, loaded.
    cbn [metadata scaler model or_raise try_bind feature_names feature_vector].
    rewrite Hfeat1. cbn [try_bind feature_vector]. rewrite Hfeat2. reflexivity. }
  split; [done|]. unfold scenario_globals in *.
  rewrite predict_loaded. by rewrite Heval.
Qed.

Lemma scenario_with_integer_labels_witness :
  evaluate_model (scenario_globals [("1", 0); ("2", 1)]) scenario_input =
    Ok {| predicted_class := 2;
          prediction_probabilities := [("1", 0.3%Q); ("2", 0.7%Q)];
          confidence := 0.7%Q |} ∧
  predict (scenario_globals [("1", 0); ("2", 1)]) [] scenario_input =
    (Ok {| predicted_class := 2;
           prediction_probabilities := [("1", 0.3%Q); ("2", 0.7%Q)];
           confidence := 0.7%Q |}, [] ++ [scenario_input]).
Proof.
  apply (scenario_with_integer_labels [] scenario_input).
  - reflexivity.
  - reflexivity.
Defined.

(** ** Classes 2 and 10 *)

(** C1, at the bundle with classes 2 and 10 and the example request.  The
    classifier predicts index 1 with probability 0.7, so the predicted class
    is 10; but in the returned mapping the key "10" holds 0.3 and the key
    "2" holds the maximum 0.7, the confidence: the predicted class is not
    the key holding the maximum. *)
Theorem predicted_class_is_not_max_probability_key :
  ∃ result,
    (predict two_ten_globals [] example_input).1 = Ok result ∧
    predicted_class result = 10 ∧
    confidence result = 0.7%Q ∧
    dict_get "10" (prediction_probabilities result) = Some 0.3%Q ∧
    dict_get "2" (prediction_probabilities result) = Some 0.7%Q ∧
    dict_keys (prediction_probabilities result) = ["10"; "2"] ∧
    (0.3 < 0.7)%Q.
Proof. eexists. split_and!; reflexivity. Qed.

(** C3, at the same bundle.  The label "2" has the encoded index 0, to which
    the classifier assigns 0.3; the returned mapping gives "2" the
    probability 0.7 of index 1, because "2" is second in the sorted labels
    ["10"; "2"]. *)
Theorem probability_is_not_of_encoded_index :
  ∃ result X_scaled prediction_proba,
    (predict two_ten_globals [] example_input).1 = Ok result ∧
    (let* X := feature_vector example_input (feature_names two_ten_metadata) in
     scaler_transform (identity_scaler 36) X) = Ok X_scaled ∧
    model_predict_proba (constant_classifier [0.3; 0.7]%Q) X_scaled = Ok prediction_proba ∧
    sorted (dict_keys (json_loads (class_mapping two_ten_metadata))) = ["10"; "2"] ∧
    dict_get "2" (json_loads (class_mapping two_ten_metadata)) = Some 0 ∧
    prediction_proba !! 0%nat = Some 0.3%Q ∧
    prediction_proba !! 1%nat = Some 0.7%Q ∧
    dict_get "2" (prediction_probabilities result) = Some 0.7%Q.
Proof. do 3 eexists. split_and!; reflexivity. Qed.


(** * Further properties of the module *)

(** ** The feature vector *)

Lemma feature_vector_ext (data1 data2 : gmap string Q) (names : list string) :
  (∀ name, name ∈ names → data1 !! name = data2 !! name) →
  feature_vector data1 names = feature_vector data2 names.
Proof.
  induction names as [|feat names IH]; intros Hagree; simpl; [done|].
  rewrite <-(Hagree feat) by apply list_elem_of_here.
  rewrite IH; [done|]. intros name Hin. apply Hagree. by apply list_elem_of_further.
Qed.

(** X1. The list comprehension over [feature_names] succeeds exactly when
    every name is a key of the record, and then the vector has one entry per
    name, in the order of [feature_names], each the record's value for that
    name. *)
Theorem feature_vector_Ok_iff (data : gmap string Q) (names : list string) (X : list Q) :
  feature_vector data names = Ok X ↔
  Forall2 (λ name x, data !! name = Some x) names X.
Proof.
  revert X. induction names as [|feat names IH]; intros X; simpl.
  - split.
    + intros [= <-]. constructor.
    + intros ->%Forall2_nil_inv_l. done.
  - destruct (data !! feat) as [x|] eqn:Hfeat.
    + rewrite try_bind_Ok. split.
      * intros (xs & Hxs%IH & [= <-]). by constructor.
      * intros (x' & xs & Hx & Hxs & ->)%Forall2_cons_inv_l.
        exists xs. split; [by apply IH|congruence].
    + split; [done|].
      intros (x' & xs & Hx & _ & _)%Forall2_cons_inv_l. congruence.
Qed.

(** X2. A prediction depends on the request only through the fields named
    in [feature_names]: two requests that agree on those fields get the same
    answer from [evaluate_model] and from [predict], whatever their other
    fields hold. *)
Theorem evaluate_model_reads_only_features g md pool
    (input_data1 input_data2 : PredictionInput) :
  metadata g = Some md →
  (∀ name, name ∈ feature_names md → input_data1 !! name = input_data2 !! name) →
  evaluate_model g input_data1 = evaluate_model g input_data2 ∧
  (predict g pool input_data1).1 = (predict g pool input_data2).1.
Proof.
  intros Hmd Hagree.
  assert (evaluate_model g input_data1 = evaluate_model g input_data2) as Heq.
  { unfold evaluate_model, evaluate_model_body. rewrite Hmd. simpl.
    by rewrite (feature_vector_ext _ _ _ Hagree). }
  split; [done|]. unfold predict. rewrite Heq.
  destruct (not_loaded g); [done|]. by destruct (evaluate_model g input_data2).
Qed.

Lemma evaluate_model_reads_only_features_witness :
  evaluate_model (scenario_globals [("1", 0); ("2", 1)]) scenario_input
    = evaluate_model (scenario_globals [("1", 0); ("2", 1)])
        (<["feat3" := 7%Q]> scenario_input) ∧
  (predict (scenario_globals [("1", 0); ("2", 1)]) [] scenario_input).1
    = (predict (scenario_globals [("1", 0); ("2", 1)]) []
         (<["feat3" := 7%Q]> scenario_input)).1.
Proof.
  apply (evaluate_model_reads_only_features
           (scenario_globals [("1", 0); ("2", 1)])
           {| feature_names := ["feat1"; "feat2"];
              class_mapping := [("1", 0); ("2", 1)] |} []).
  - reflexivity.
  - intros name Hin. rewrite lookup_insert_ne; [done|].
    intros <-. revert Hin. apply (bool_decide_unpack _). reflexivity.
Defined.

(** ** Decoding the prediction *)

Lemma reverse_mapping_None (class_mapping : list (string * Z)) index :
  index ∉ dict_values class_mapping →
  reverse_mapping class_mapping !! index = None.
Proof.
  intros Hnotin. unfold reverse_mapping.
  by rewrite reverse_mapping_foldl_other.
Qed.

Ltac run_pipeline :=
  unfold evaluate_model, evaluate_model_body, loaded; simpl;
  repeat match goal with
    | H : ?e = Ok _ |- context [?e] => rewrite H; simpl
    | H : ?e = Some _ |- context [?e] => rewrite H; simpl
    | H : ?e = None |- context [?e] => rewrite H; simpl
    | H : ?e = Raise _ |- context [?e] => rewrite H; simpl
    end.

(** X3. Whatever the class mapping (one-to-one or not), a label the reverse
    mapping returns for an encoded index is a label the class mapping sends
    to that index: decoding then encoding is the identity.  When two labels
    share an index, the reverse mapping holds the one that comes last in the
    document. *)
Theorem reverse_mapping_encodes (members : list (string * Z)) label index :
  reverse_mapping (json_loads members) !! index = Some label →
  dict_get label (json_loads members) = Some index ∧
  ∀ before later after,
    json_loads members = before ++ (later, index) :: after →
    index ∉ dict_values after →
    later = label.
Proof.
  intros Hrev. split.
  - apply elem_of_dict_get; [apply dict_of_items_NoDup|].
    by apply reverse_mapping_Some.
  - intros before later after Heq Hafter.
    unfold reverse_mapping in Hrev. rewrite Heq, foldl_app in Hrev. simpl in Hrev.
    rewrite reverse_mapping_foldl_other in Hrev by done.
    rewrite lookup_insert_eq in Hrev. congruence.
Qed.

Lemma reverse_mapping_encodes_witness :
  dict_get "2" (json_loads [("1", 0); ("2", 0); ("3", 1)]) = Some 0 ∧
  ∀ before later after,
    json_loads [("1", 0); ("2", 0); ("3", 1)] = before ++ (later, 0) :: after →
    0 ∉ dict_values after →
    later = "2".
Proof. apply reverse_mapping_encodes. reflexivity. Defined.

(** X4. When the classifier predicts an index that no label of the class
    mapping is encoded as, [reverse_mapping[prediction]] raises [KeyError]:
    [evaluate_model] raises HTTP 500 carrying that [KeyError], and [predict]
    answers HTTP 500. *)
Theorem unknown_prediction_raises_KeyError m sc md pool input_data
    X X_scaled prediction prediction_proba :
  feature_vector input_data (feature_names md) = Ok X →
  scaler_transform sc X = Ok X_scaled →
  model_predict m X_scaled = Ok prediction →
  model_predict_proba m X_scaled = Ok prediction_proba →
  prediction ∉ dict_values (json_loads (class_mapping md)) →
  evaluate_model (loaded m sc md) input_data =
    Raise (HTTPError 500 (ErrorDuringPrediction (KeyError_int prediction))) ∧
  (predict (loaded m sc md) pool input_data).1 =
    Raise (HTTPError 500 (PredictionFailed
      (HTTPError 500 (ErrorDuringPrediction (KeyError_int prediction))))).
Proof.
  intros HX HXs Hpred Hproba Hnotin%reverse_mapping_None.
  assert (evaluate_model (loaded m sc md) input_data =
    Raise (HTTPError 500 (ErrorDuringPrediction (KeyError_int prediction)))) as Heval.
  { by run_pipeline. }
  split; [done|]. rewrite predict_loaded. simpl. by rewrite Heval.
Qed.

Lemma unknown_prediction_raises_KeyError_witness :
  let g := loaded (constant_classifier [0.3; 0.7]%Q) (identity_scaler 36)
             {| feature_names := PredictionInput_fields;
                class_mapping := [("1", 0); ("2", 2)] |} in
  evaluate_model g example_input =
    Raise (HTTPError 500 (ErrorDuringPrediction (KeyError_int 1))) ∧
  (predict g [] example_input).1 =
    Raise (HTTPError 500 (PredictionFailed
      (HTTPError 500 (ErrorDuringPrediction (KeyError_int 1))))).
Proof.
  eapply (unknown_prediction_raises_KeyError
            (constant_classifier [0.3; 0.7]%Q) (identity_scaler 36)
            {| feature_names := PredictionInput_fields;
               class_mapping := [("1", 0); ("2", 2)] |} [] example_input).
  - reflexivity.
  - reflexivity.
  - reflexivity.
  - reflexivity.
  - apply (bool_decide_unpack _). reflexivity.
Defined.

(** ** The probability dictionary, without assumptions on the bundle *)

Lemma proba_dict_from_short (class_labels : list string) (prediction_proba : list Q)
    (n s : nat) acc :
  (s ≤ length prediction_proba)%nat →
  (length prediction_proba < s + n)%nat →
  proba_dict_from class_labels prediction_proba (seq s n) acc = Raise IndexError.
Proof.
  revert s acc. induction n as [|n IH]; intros s acc Hs Hlen; simpl; [lia|].
  destruct (class_labels !! s) as [label|]; [|done].
  destruct (prediction_proba !! s) as [p|] eqn:Hp; [|done].
  apply lookup_lt_Some in Hp. apply IH; lia.
Qed.

Lemma proba_dict_from_Ok (class_labels : list string) (prediction_proba : list Q) proba_dict :
  NoDup class_labels →
  proba_dict_from class_labels prediction_proba (seq 0 (length class_labels)) []
    = Ok proba_dict →
  (length class_labels ≤ length prediction_proba)%nat ∧
  proba_dict = zip class_labels prediction_proba.
Proof.
  intros Hnodup Hpd.
  destruct (decide (length class_labels ≤ length prediction_proba)%nat) as [Hle|Hgt].
  - rewrite proba_dict_from_range in Hpd by done. split; [done|congruence].
  - rewrite proba_dict_from_short in Hpd by lia. done.
Qed.

#[local] Instance str_le_total : Total str_le.
Proof.
  intros s1 s2. unfold str_le.
  destruct (String.leb_total s1 s2) as [H|H]; rewrite H; auto.
Qed.

(** X5. When the classifier returns fewer probabilities than the class
    mapping has labels, building the probability dictionary raises
    [IndexError]: [evaluate_model] raises HTTP 500 carrying it, even though
    the predicted label itself could be decoded. *)
Theorem too_few_probabilities_raises_IndexError m sc md pool input_data
    X X_scaled prediction prediction_proba label :
  feature_vector input_data (feature_names md) = Ok X →
  scaler_transform sc X = Ok X_scaled →
  model_predict m X_scaled = Ok prediction →
  model_predict_proba m X_scaled = Ok prediction_proba →
  reverse_mapping (json_loads (class_mapping md)) !! prediction = Some label →
  (length prediction_proba < length (json_loads (class_mapping md)))%nat →
  evaluate_model (loaded m sc md) input_data =
    Raise (HTTPError 500 (ErrorDuringPrediction IndexError)) ∧
  (predict (loaded m sc md) pool input_data).1 =
    Raise (HTTPError 500 (PredictionFailed
      (HTTPError 500 (ErrorDuringPrediction IndexError)))).
Proof.
  intros HX HXs Hpred Hproba Hlabel Hlen.
  assert (evaluate_model (loaded m sc md) input_data =
    Raise (HTTPError 500 (ErrorDuringPrediction IndexError))) as Heval.
  { run_pipeline. rewrite proba_dict_from_short; [done|lia|].
    rewrite class_labels_length. lia. }
  split; [done|]. rewrite predict_loaded. simpl. by rewrite Heval.
Qed.

Lemma too_few_probabilities_raises_IndexError_witness :
  let g := loaded (constant_classifier [0.3; 0.7]%Q) (identity_scaler 36)
             {| feature_names := PredictionInput_fields;
                class_mapping := [("1", 0); ("2", 1); ("3", 2)] |} in
  evaluate_model g example_input =
    Raise (HTTPError 500 (ErrorDuringPrediction IndexError)) ∧
  (predict g [] example_input).1 =
    Raise (HTTPError 500 (PredictionFailed
      (HTTPError 500 (ErrorDuringPrediction IndexError)))).
Proof.
  eapply (too_few_probabilities_raises_IndexError
            (constant_classifier [0.3; 0.7]%Q) (identity_scaler 36)
            {| feature_names := PredictionInput_fields;
               class_mapping := [("1", 0); ("2", 1); ("3", 2)] |} [] example_input).
  - reflexivity.
  - reflexivity.
  - reflexivity.
  - reflexivity.
  - reflexivity.
  - simpl. lia.
Defined.

(** X6. In every successful answer, [prediction_probabilities] lists the
    labels of the class mapping, each exactly once, in ascending string
    order, and pairs the i-th of them with the i-th probability the
    classifier returned; probabilities beyond the number of labels are left
    out. *)
Theorem prediction_probabilities_zip_sorted_labels m sc md pool input_data result :
  (predict (loaded m sc md) pool input_data).1 = Ok result →
  ∃ X X_scaled prediction_proba,
    feature_vector input_data (feature_names md) = Ok X ∧
    scaler_transform sc X = Ok X_scaled ∧
    model_predict_proba m X_scaled = Ok prediction_proba ∧
    prediction_probabilities result =
      zip (sorted (dict_keys (json_loads (class_mapping md)))) prediction_proba ∧
    dict_keys (prediction_probabilities result) =
      sorted (dict_keys (json_loads (class_mapping md))) ∧
    dict_values (prediction_probabilities result) =
      take (length (json_loads (class_mapping md))) prediction_proba ∧
    Sorted str_le (dict_keys (prediction_probabilities result)) ∧
    NoDup (dict_keys (prediction_probabilities result)) ∧
    dict_keys (prediction_probabilities result) ≡ₚ dict_keys (json_loads (class_mapping md)).
Proof.
  rewrite predict_loaded. simpl.
  destruct (evaluate_model (loaded m sc md) input_data) as [r|e] eqn:Heval; [|done].
  intros [= ->].
  apply evaluate_model_Ok, evaluate_model_body_Ok in Heval
    as (X & Xs & prediction & proba & label & pd
        & HX & HXs & _ & Hproba & _ & Hpd & _ & _ & ->).
  apply proba_dict_from_Ok in Hpd as [Hlen ->]; [|apply class_labels_NoDup].
  assert (dict_keys (zip (sorted (dict_keys (json_loads (class_mapping md)))) proba)
          = sorted (dict_keys (json_loads (class_mapping md)))) as Hkeys.
  { unfold dict_keys at 1. by apply fst_zip. }
  exists X, Xs, proba. rewrite Hkeys. split_and!; try done.
  - rewrite <-class_labels_length. unfold dict_values.
    rewrite <-(zip_with_take_r _ _ proba). apply snd_zip. rewrite length_take. lia.
  - apply Sorted_merge_sort. apply _.
  - apply class_labels_NoDup.
  - apply sorted_Permutation.
Qed.

Lemma prediction_probabilities_zip_sorted_labels_witness :
  ∃ X X_scaled prediction_proba,
    feature_vector example_input (feature_names two_ten_metadata) = Ok X ∧
    scaler_transform (identity_scaler 36) X = Ok X_scaled ∧
    model_predict_proba (constant_classifier [0.3; 0.7]%Q) X_scaled = Ok prediction_proba ∧
    [("10", 0.3%Q); ("2", 0.7%Q)] =
      zip (sorted (dict_keys (json_loads (class_mapping two_ten_metadata)))) prediction_proba ∧
    dict_keys [("10", 0.3%Q); ("2", 0.7%Q)] =
      sorted (dict_keys (json_loads (class_mapping two_ten_metadata))) ∧
    dict_values [("10", 0.3%Q); ("2", 0.7%Q)] =
      take (length (json_loads (class_mapping two_ten_metadata))) prediction_proba ∧
    Sorted str_le (dict_keys [("10", 0.3%Q); ("2", 0.7%Q)]) ∧
    NoDup (dict_keys [("10", 0.3%Q); ("2", 0.7%Q)]) ∧
    dict_keys [("10", 0.3%Q); ("2", 0.7%Q)] ≡ₚ dict_keys (json_loads (class_mapping two_ten_metadata)).
Proof.
  apply (prediction_probabilities_zip_sorted_labels
           (constant_classifier [0.3; 0.7]%Q) (identity_scaler 36) two_ten_metadata
           [] example_input
           {| predicted_class := 10;
              prediction_probabilities := [("10", 0.3%Q); ("2", 0.7%Q)];
              confidence := 0.7%Q |}).
  reflexivity.
Defined.

(** ** The confidence *)

(** X7. In every successful answer, [confidence] is the largest of all the
    probabilities the classifier returned for the request: it is one of them
    and none exceeds it, whether or not it appears in
    [prediction_probabilities]. *)
Theorem confidence_is_max_of_classifier_output m sc md pool input_data result :
  (predict (loaded m sc md) pool input_data).1 = Ok result →
  ∃ X X_scaled prediction_proba,
    feature_vector input_data (feature_names md) = Ok X ∧
    scaler_transform sc X = Ok X_scaled ∧
    model_predict_proba m X_scaled = Ok prediction_proba ∧
    confidence result ∈ prediction_proba ∧
    Forall (λ p, (p <= confidence result)%Q) prediction_proba.
Proof.
  rewrite predict_loaded. simpl.
  destruct (evaluate_model (loaded m sc md) input_data) as [r|e] eqn:Heval; [|done].
  intros [= ->].
  apply evaluate_model_Ok, evaluate_model_body_Ok in Heval
    as (X & Xs & prediction & proba & label & pd
        & HX & HXs & _ & Hproba & _ & _ & _ & Hmax & _).
  exists X, Xs, proba. apply py_max_Ok in Hmax as [??]. done.
Qed.

Lemma confidence_is_max_of_classifier_output_witness :
  ∃ X X_scaled prediction_proba,
    feature_vector example_input (feature_names two_ten_metadata) = Ok X ∧
    scaler_transform (identity_scaler 36) X = Ok X_scaled ∧
    model_predict_proba (constant_classifier [0.3; 0.7]%Q) X_scaled = Ok prediction_proba ∧
    0.7%Q ∈ prediction_proba ∧
    Forall (λ p, (p <= 0.7)%Q) prediction_proba.
Proof.
  apply (confidence_is_max_of_classifier_output
           (constant_classifier [0.3; 0.7]%Q) (identity_scaler 36) two_ten_metadata
           [] example_input
           {| predicted_class := 10;
              prediction_probabilities := [("10", 0.3%Q); ("2", 0.7%Q)];
              confidence := 0.7%Q |}).
  reflexivity.
Defined.

(** X8. When [model.predict] is the first index of the maximum of
    [model.predict_proba], the confidence of a successful answer is the
    probability the classifier gave to the predicted index, and the
    predicted index is an encoded index of the class mapping. *)
Theorem confidence_is_probability_of_prediction m sc md pool input_data result :
  predict_is_argmax m →
  (predict (loaded m sc md) pool input_data).1 = Ok result →
  ∃ X X_scaled prediction prediction_proba,
    feature_vector input_data (feature_names md) = Ok X ∧
    scaler_transform sc X = Ok X_scaled ∧
    model_predict m X_scaled = Ok prediction ∧
    model_predict_proba m X_scaled = Ok prediction_proba ∧
    (0 ≤ prediction)%Z ∧
    prediction_proba !! Z.to_nat prediction = Some (confidence result) ∧
    prediction ∈ dict_values (json_loads (class_mapping md)).
Proof.
  intros Hargmax. rewrite predict_loaded. simpl.
  destruct (evaluate_model (loaded m sc md) input_data) as [r|e] eqn:Heval; [|done].
  intros [= ->].
  apply evaluate_model_Ok, evaluate_model_body_Ok in Heval
    as (X & Xs & prediction & proba & label & pd
        & HX & HXs & Hpred & Hproba & Hlabel & _ & _ & Hmax & _).
  destruct (Hargmax _ _ Hproba) as (i & Hi & Hpred').
  assert (prediction = Z.of_nat i) as -> by congruence.
  exists X, Xs, (Z.of_nat i), proba. split_and!; try done.
  - lia.
  - rewrite Nat2Z.id. by apply argmax_py_max.
  - apply reverse_mapping_Some in Hlabel. unfold dict_values.
    apply list_elem_of_fmap. by exists (label, Z.of_nat i).
Qed.

Lemma confidence_is_probability_of_prediction_witness :
  ∃ X X_scaled prediction prediction_proba,
    feature_vector example_input (feature_names two_ten_metadata) = Ok X ∧
    scaler_transform (identity_scaler 36) X = Ok X_scaled ∧
    model_predict (constant_classifier [0.3; 0.7]%Q) X_scaled = Ok prediction ∧
    model_predict_proba (constant_classifier [0.3; 0.7]%Q) X_scaled = Ok prediction_proba ∧
    (0 ≤ prediction)%Z ∧
    prediction_proba !! Z.to_nat prediction = Some 0.7%Q ∧
    prediction ∈ dict_values (json_loads (class_mapping two_ten_metadata)).
Proof.
  apply (confidence_is_probability_of_prediction
           (constant_classifier [0.3; 0.7]%Q) (identity_scaler 36) two_ten_metadata
           [] example_input
           {| predicted_class := 10;
              prediction_probabilities := [("10", 0.3%Q); ("2", 0.7%Q)];
              confidence := 0.7%Q |}).
  - by apply constant_classifier_argmax.
  - reflexivity.
Defined.

(** ** [load_model_components] as a function *)

(** X9. When [load_model_components], run on the unloaded globals, returns
    [False], the service is left unavailable: the metadata is still [None],
    the health check answers unhealthy and [predict] raises HTTP 503 without
    handing anything to the executor.  The assignments made before the
    failure stay: if the model file could be read, [model] holds what it
    returned. *)
Theorem failed_load_leaves_service_unavailable dir pool input_data :
  (load_model_components dir unloaded).1 = false →
  metadata (load_model_components dir unloaded).2 = None ∧
  health_check (load_model_components dir unloaded).2 = unhealthy ∧
  predict (load_model_components dir unloaded).2 pool input_data =
    (Raise (HTTPError 503 ModelComponentsNotLoaded), pool) ∧
  (∀ v, xgboost_model_pkl dir = Returns v →
        model (load_model_components dir unloaded).2 = v).
Proof.
  unfold load_model_components, health_check, predict, not_loaded.
  destruct (xgboost_model_pkl dir) as [|m]; simpl; [done|].
  destruct (scaler_pkl dir) as [|sc]; simpl.
  - intros _. rewrite !orb_true_r. split_and!; try done. by intros v [= ->].
  - destruct (model_metadata_json dir) as [|md]; simpl; [|done].
    intros _. rewrite !orb_true_r. split_and!; try done. by intros v [= ->].
Qed.

Lemma failed_load_leaves_service_unavailable_witness :
  let dir := {| xgboost_model_pkl := Returns (Some (constant_classifier [0.3; 0.7]%Q));
                scaler_pkl := Raises;
                model_metadata_json := Returns (Some two_ten_metadata) |} in
  metadata (load_model_components dir unloaded).2 = None ∧
  health_check (load_model_components dir unloaded).2 = unhealthy ∧
  predict (load_model_components dir unloaded).2 [] example_input =
    (Raise (HTTPError 503 ModelComponentsNotLoaded), []) ∧
  (∀ v, xgboost_model_pkl dir = Returns v →
        model (load_model_components dir unloaded).2 = v).
Proof.
  apply (failed_load_leaves_service_unavailable
           {| xgboost_model_pkl := Returns (Some (constant_classifier [0.3; 0.7]%Q));
              scaler_pkl := Raises;
              model_metadata_json := Returns (Some two_ten_metadata) |}).
  reflexivity.
Defined.

(** X10. [load_model_components] returns [True] exactly when none of the
    three reads raises.  After it has run on the unloaded globals, the health
    check answers healthy exactly when, moreover, each file held an object
    (not a null); the globals are then these three objects. *)
Theorem load_makes_healthy_iff dir :
  ((load_model_components dir unloaded).1 = true ↔
   ∃ m sc md,
     xgboost_model_pkl dir = Returns m ∧
     scaler_pkl dir = Returns sc ∧
     model_metadata_json dir = Returns md) ∧
  (health_check (load_model_components dir unloaded).2 = healthy ↔
   ∃ m sc md,
     xgboost_model_pkl dir = Returns (Some m) ∧
     scaler_pkl dir = Returns (Some sc) ∧
     model_metadata_json dir = Returns (Some md) ∧
     load_model_components dir unloaded = (true, loaded m sc md)).
Proof.
  unfold load_model_components, health_check, not_loaded. split; split.
  - destruct (xgboost_model_pkl dir) as [|m]; simpl; try done;
      destruct (scaler_pkl dir) as [|sc]; simpl; try done;
      destruct (model_metadata_json dir) as [|md]; simpl; try done.
    intros _. by exists m, sc, md.
  - intros (m & sc & md & -> & -> & ->). done.
  - destruct (xgboost_model_pkl dir) as [|[m|]]; simpl; try done;
      destruct (scaler_pkl dir) as [|[sc|]]; simpl; try done;
      destruct (model_metadata_json dir) as [|[md|]]; simpl; try done.
    intros _. by exists m, sc, md.
  - intros (m & sc & md & -> & -> & -> & _). done.
Qed.

(** ** What can go wrong in [evaluate_model] *)

Lemma feature_vector_Raise (data : gmap string Q) (names : list string) e :
  feature_vector data names = Raise e →
  ∃ name, e = KeyError_str name ∧ name ∈ names ∧ data !! name = None.
Proof.
  induction names as [|feat names IH]; simpl; [done|].
  destruct (data !! feat) as [x|] eqn:Hfeat.
  - destruct (feature_vector data names) as [xs|e']; simpl; [done|].
    intros [= <-]. destruct IH as (name & -> & Hin & Hname); [done|].
    exists name. split_and!; [done| |done]. by apply list_elem_of_further.
  - intros [= <-]. exists feat. split_and!; [done| |done]. apply list_elem_of_here.
Qed.

Lemma reverse_mapping_foldl_is_Some (l : list (string * Z)) (m : gmap Z string) v :
  v ∈ l.*2 ∨ is_Some (m !! v) →
  is_Some (foldl (λ m kv, <[kv.2 := kv.1]> m) m l !! v).
Proof.
  revert m. induction l as [|[k' v'] l IH]; intros m; simpl.
  - intros [?%elem_of_nil|?]; done.
  - intros [[->|Hin]%elem_of_cons|Hm]; apply IH.
    + right. rewrite lookup_insert_eq. by eexists.
    + by left.
    + right. destruct (decide (v' = v)) as [->|Hne].
      * rewrite lookup_insert_eq. by eexists.
      * by rewrite lookup_insert_ne.
Qed.

Lemma reverse_mapping_is_Some (class_mapping : list (string * Z)) index :
  index ∈ dict_values class_mapping →
  is_Some (reverse_mapping class_mapping !! index).
Proof. intros Hin. apply reverse_mapping_foldl_is_Some. by left. Qed.

Lemma py_int_Raise (s : string) e : py_int s = Raise e → e = ValueError_int s.
Proof. unfold py_int. destruct (int_literal _); congruence. Qed.

(** X11. For a bundle of the shape the embedding takes ([Metadata]: the
    metadata holds a [feature_names] list of strings and a [class_mapping]
    that parses to an object with integer values; [Model]: the classifier
    returns an integer index and a vector of probabilities), so that lines
    178 and 189-190 do not raise, and with the three components loaded, the
    rest of [evaluate_model] fails only for one of these reasons: a name of
    [feature_names] is missing from the request ([KeyError] naming it);
    [scaler.transform], [model.predict] or [model.predict_proba] raised; the
    predicted index is no value of the class mapping ([KeyError] naming the
    index); the classifier returned fewer probabilities than there are
    labels ([IndexError]); or the decoded label, a key of the class mapping,
    is not an integer literal ([ValueError]).  In particular [max] is never
    applied to an empty vector. *)
Theorem evaluate_model_failure_causes m sc md input_data cause :
  evaluate_model_body (loaded m sc md) input_data = Raise cause →
  (∃ name, cause = KeyError_str name ∧
           name ∈ feature_names md ∧ input_data !! name = None) ∨
  (∃ X, feature_vector input_data (feature_names md) = Ok X ∧
        scaler_transform sc X = Raise cause) ∨
  (∃ X_scaled, model_predict m X_scaled = Raise cause) ∨
  (∃ X_scaled, model_predict_proba m X_scaled = Raise cause) ∨
  (∃ X_scaled prediction,
     model_predict m X_scaled = Ok prediction ∧
     cause = KeyError_int prediction ∧
     prediction ∉ dict_values (json_loads (class_mapping md))) ∨
  (∃ X_scaled prediction_proba,
     model_predict_proba m X_scaled = Ok prediction_proba ∧
     cause = IndexError ∧
     (length prediction_proba < length (json_loads (class_mapping md)))%nat) ∨
  (∃ label, cause = ValueError_int label ∧
            label ∈ dict_keys (json_loads (class_mapping md))).
Proof.
  unfold evaluate_model_body, loaded. simpl.
  destruct (feature_vector input_data (feature_names md)) as [X|e] eqn:HX; simpl.
  2:{ intros [= <-]. left. by apply feature_vector_Raise. }
  destruct (scaler_transform sc X) as [Xs|e] eqn:HXs; simpl.
  2:{ intros [= <-]. right; left. by exists X. }
  destruct (model_predict m Xs) as [prediction|e] eqn:Hpred; simpl.
  2:{ intros [= <-]. do 2 right; left. by exists Xs. }
  destruct (model_predict_proba m Xs) as [proba|e] eqn:Hproba; simpl.
  2:{ intros [= <-]. do 3 right; left. by exists Xs. }
  destruct (reverse_mapping (json_loads (class_mapping md)) !! prediction)
    as [label|] eqn:Hlabel; simpl.
  2:{ intros [= <-]. do 4 right; left. exists Xs, prediction. split_and!; [done..|].
      intros [? Hsome]%reverse_mapping_is_Some. congruence. }
  apply reverse_mapping_Some in Hlabel.
  destruct (proba_dict_from _ proba _ _) as [pd|e] eqn:Hpd; simpl.
  2:{ intros [= <-]. do 5 right; left. exists Xs, proba.
      split_and!; [done|by eapply proba_dict_from_Raise|].
      rewrite <-class_labels_length.
      destruct (decide (length (sorted (dict_keys (json_loads (class_mapping md))))
                        ≤ length proba)%nat) as [Hle|]; [|lia].
      rewrite proba_dict_from_range in Hpd; [done|apply class_labels_NoDup|done]. }
  apply proba_dict_from_Ok in Hpd as [Hlen _]; [|apply class_labels_NoDup].
  rewrite class_labels_length in Hlen.
  destruct (py_int label) as [z|e] eqn:Hint; simpl.
  2:{ intros [= <-]. do 6 right. exists label. split; [by eapply py_int_Raise|].
      unfold dict_keys. apply list_elem_of_fmap. by exists (label, prediction). }
  destruct proba as [|p proba]; simpl; [|done].
  destruct (json_loads (class_mapping md)); [by apply elem_of_nil in Hlabel|].
  simpl in Hlen. lia.
Qed.

Lemma evaluate_model_failure_causes_witness :
  let md := {| feature_names := PredictionInput_fields;
               class_mapping := [("1", 0); ("two", 1)] |} in
  (∃ name, ValueError_int "two" = KeyError_str name ∧
           name ∈ feature_names md ∧ example_input !! name = None) ∨
  (∃ X, feature_vector example_input (feature_names md) = Ok X ∧
        scaler_transform (identity_scaler 36) X = Raise (ValueError_int "two")) ∨
  (∃ X_scaled,
     model_predict (constant_classifier [0.3; 0.7]%Q) X_scaled =
       Raise (ValueError_int "two")) ∨
  (∃ X_scaled,
     model_predict_proba (constant_classifier [0.3; 0.7]%Q) X_scaled =
       Raise (ValueError_int "two")) ∨
  (∃ X_scaled prediction,
     model_predict (constant_classifier [0.3; 0.7]%Q) X_scaled = Ok prediction ∧
     ValueError_int "two" = KeyError_int prediction ∧
     prediction ∉ dict_values (json_loads (class_mapping md))) ∨
  (∃ X_scaled prediction_proba,
     model_predict_proba (constant_classifier [0.3; 0.7]%Q) X_scaled = Ok prediction_proba ∧
     ValueError_int "two" = IndexError ∧
     (length prediction_proba < length (json_loads (class_mapping md)))%nat) ∨
  (∃ label, ValueError_int "two" = ValueError_int label ∧
            label ∈ dict_keys (json_loads (class_mapping md))).
Proof.
  apply (evaluate_model_failure_causes
           (constant_classifier [0.3; 0.7]%Q) (identity_scaler 36)
           {| feature_names := PredictionInput_fields;
              class_mapping := [("1", 0); ("two", 1)] |} example_input).
  reflexivity.
Defined.

(** ** The executor *)

Lemma reachable_executor_loaded dir s :
  reachable dir s → executor s ≠ [] → not_loaded (globals s) = false.
Proof.
  induction 1 as [|s ev s' Hreach IH Hstep]; [done|].
  destruct Hstep as [s s' Hload| |s input_data]; simpl.
  - intros Hne.
    assert (executor s' = executor s) as Hex.
    { unfold load_step in Hload.
      destruct (pc s); [destruct (xgboost_model_pkl dir)
                       |destruct (scaler_pkl dir)
                       |destruct (model_metadata_json dir)|];
        by simplify_eq. }
    rewrite Hex in Hne. pose proof (IH Hne) as Hloaded.
    destruct (loaded_published dir s (reachable_load_invariant dir s Hreach) Hloaded)
      as [Hpc _].
    unfold load_step in Hload. by rewrite Hpc in Hload.
  - done.
  - unfold predict. destruct (not_loaded (globals s)) eqn:Hloaded; simpl; [done|].
    by destruct (evaluate_model (globals s) input_data).
Qed.

(** X12. However the requests are interleaved with the load, the executor
    is handed a call only once the load has returned successfully: in every
    reachable state in which something was submitted, the three globals hold
    the objects of the model directory.  Each request then adds exactly its
    own input at the end of the submitted calls, whether or not the
    evaluation succeeds, and a request answered with HTTP 503 adds
    nothing. *)
Theorem executor_used_only_after_load dir s :
  reachable dir s →
  (executor s ≠ [] → pc s = Returned true ∧ published dir (globals s)) ∧
  (∀ input_data,
     (predict (globals s) (executor s) input_data).2 =
       if not_loaded (globals s) then executor s
       else executor s ++ [input_data]).
Proof.
  intros Hreach. split.
  - intros Hne. apply loaded_published.
    + by apply reachable_load_invariant.
    + by eapply reachable_executor_loaded.
  - intros input_data. unfold predict.
    destruct (not_loaded (globals s)); [done|].
    by destruct (evaluate_model (globals s) input_data).
Qed.

Lemma executor_used_only_after_load_witness :
  let s := {| pc := Returned true; globals := two_ten_globals;
              executor := [example_input] |} in
  (executor s ≠ [] → pc s = Returned true ∧ published two_ten_dir (globals s)) ∧
  (∀ input_data,
     (predict (globals s) (executor s) input_data).2 =
       if not_loaded (globals s) then executor s
       else executor s ++ [input_data]).
Proof.
  apply (executor_used_only_after_load two_ten_dir
           {| pc := Returned true; globals := two_ten_globals;
              executor := [example_input] |}).
  apply (reachable_step two_ten_dir (load_run two_ten_dir 3 startup)
           (Predict example_input
              (predict two_ten_globals [] example_input).1)).
  - apply load_run_reachable, reachable_startup.
  - apply (step_predict two_ten_dir (load_run two_ten_dir 3 startup) example_input).
Defined.

(** ** Bundles that always answer *)

Lemma feature_vector_present (data : gmap string Q) (names : list string) :
  (∀ name, name ∈ names → is_Some (data !! name)) →
  ∃ X, feature_vector data names = Ok X ∧ length X = length names.
Proof.
  induction names as [|feat names IH]; intros Hpresent; simpl.
  - by exists [].
  - destruct (Hpresent feat) as [x Hx]; [apply list_elem_of_here|].
    destruct IH as (xs & Hxs & Hlen).
    { intros name Hin. apply Hpresent. by apply list_elem_of_further. }
    rewrite Hx, Hxs. simpl. exists (x :: xs). by rewrite <-Hlen.
Qed.

(** X13. [predict] returns a result for every validated request when the
    bundle is well paired: the feature names are fields of the request
    schema, the scaler accepts vectors of that many features, the classifier
    answers with an encoded index of the class mapping and with one
    probability per class, and every label of the class mapping is an
    integer literal.  None of the exceptions of [evaluate_model] can then
    occur. *)
Theorem well_paired_bundle_answers m sc md pool input_data :
  PredictionInput_valid input_data →
  (∀ name, name ∈ feature_names md → name ∈ PredictionInput_fields) →
  (∀ X, length X = length (feature_names md) →
        ∃ X_scaled, scaler_transform sc X = Ok X_scaled) →
  (∀ X_scaled, ∃ prediction prediction_proba,
     model_predict m X_scaled = Ok prediction ∧
     model_predict_proba m X_scaled = Ok prediction_proba ∧
     prediction ∈ dict_values (json_loads (class_mapping md))) →
  one_probability_per_class m md →
  (∀ label, label ∈ dict_keys (json_loads (class_mapping md)) →
            ∃ z, py_int label = Ok z) →
  ∃ result,
    predict (loaded m sc md) pool input_data = (Ok result, pool ++ [input_data]).
Proof.
  intros Hvalid Hnames Hscaler Hmodel Harity Hint.
  destruct (feature_vector_present input_data (feature_names md)) as (X & HX & HlenX).
  { intros name Hin. apply Hvalid. by apply Hnames. }
  destruct (Hscaler X HlenX) as [Xs HXs].
  destruct (Hmodel Xs) as (prediction & proba & Hpred & Hproba & Hin).
  destruct (reverse_mapping_is_Some _ _ Hin) as [label Hlabel].
  destruct (Hint label) as [z Hz].
  { apply reverse_mapping_Some in Hlabel. unfold dict_keys.
    apply list_elem_of_fmap. by exists (label, prediction). }
  pose proof (Harity _ _ Hproba) as Hlen.
  destruct (py_max proba) as [c|e] eqn:Hmax.
  2:{ destruct proba; [|done]. simpl in Hlen.
      destruct (json_loads (class_mapping md)); [|done].
      by apply elem_of_nil in Hin. }
  eexists. rewrite predict_loaded. run_pipeline.
  rewrite proba_dict_from_range;
    [|apply class_labels_NoDup|rewrite class_labels_length; lia].
  done.
Qed.

Lemma well_paired_bundle_answers_witness :
  ∃ result,
    predict two_ten_globals [] example_input = (Ok result, [] ++ [example_input]).
Proof.
  apply (well_paired_bundle_answers
           (constant_classifier [0.3; 0.7]%Q) (identity_scaler 36) two_ten_metadata
           [] example_input).
  - apply example_input_valid.
  - by intros name Hin.
  - intros X HlenX. eexists. unfold identity_scaler, standard_scaler. simpl.
    rewrite decide_True; [done|]. split; exact HlenX.
  - intros Xs. exists 1, [0.3; 0.7]%Q. split_and!; [done..|].
    apply (bool_decide_unpack _). reflexivity.
  - intros X proba [= <-]. reflexivity.
  - intros label Hin.
    change (dict_keys (json_loads (class_mapping two_ten_metadata)))
      with ["2"; "10"] in Hin.
    apply elem_of_cons in Hin as [->|Hin]; [by exists 2|].
    apply list_elem_of_singleton in Hin as ->. by exists 10.
Defined.

(** ** The order of the members of the class mapping *)

Lemma str_le_lt_or_eq (s1 s2 : string) :
  str_le s1 s2 ↔ OrderedTypeEx.String_as_OT.lt s1 s2 ∨ s1 = s2.
Proof.
  unfold str_le, String.leb.
  destruct (String.compare s1 s2) eqn:Hcmp; simpl.
  - apply OrderedTypeEx.String_as_OT.cmp_eq in Hcmp. naive_solver.
  - apply OrderedTypeEx.String_as_OT.cmp_lt in Hcmp. naive_solver.
  - split; [done|]. intros [Hlt| ->].
    + apply OrderedTypeEx.String_as_OT.cmp_lt in Hlt.
      unfold OrderedTypeEx.String_as_OT.cmp in Hlt. congruence.
    + assert (String.compare s2 s2 = Eq) as Heq
        by (by apply OrderedTypeEx.String_as_OT.cmp_eq).
      congruence.
Qed.

#[local] Instance str_le_trans : Transitive str_le.
Proof.
  intros s1 s2 s3. rewrite !str_le_lt_or_eq.
  intros [H12| ->] [H23| ->]; eauto.
  left. by eapply OrderedTypeEx.String_as_OT.lt_trans.
Qed.

#[local] Instance str_le_antisym : AntiSymm (=) str_le.
Proof.
  intros s1 s2 H12 H21. apply String.leb_antisym; by apply Is_true_true.
Qed.

Lemma sorted_Permutation_eq (l1 l2 : list string) : l1 ≡ₚ l2 → sorted l1 = sorted l2.
Proof.
  intros Hperm. apply (Sorted_unique str_le).
  - apply Sorted_merge_sort, _.
  - apply Sorted_merge_sort, _.
  - by rewrite !sorted_Permutation.
Qed.

Lemma dict_of_items_foldl_NoDup (acc items : list (string * Z)) :
  NoDup (acc ++ items).*1 →
  foldl (λ d kv, dict_set kv.1 kv.2 d) acc items = acc ++ items.
Proof.
  revert acc. induction items as [|[k v] items IH]; intros acc Hnodup; simpl.
  - by rewrite app_nil_r.
  - rewrite dict_set_fresh.
    + rewrite IH; rewrite <-app_assoc; done.
    + rewrite fmap_app in Hnodup. apply NoDup_app in Hnodup as (_ & Hdisj & _).
      intros Hin. apply (Hdisj k Hin). simpl. apply list_elem_of_here.
Qed.

Lemma json_loads_NoDup (members : list (string * Z)) :
  NoDup (dict_keys members) → json_loads members = members.
Proof. intros Hnodup. by apply (dict_of_items_foldl_NoDup []). Qed.

Lemma reverse_mapping_Permutation (l1 l2 : list (string * Z)) :
  l1 ≡ₚ l2 → NoDup (dict_values l1) →
  reverse_mapping l1 = reverse_mapping l2.
Proof.
  intros Hperm Hnodup. apply map_eq. intros index.
  destruct (decide (index ∈ dict_values l1)) as [Hin|Hnotin].
  - apply list_elem_of_fmap in Hin as ([label index'] & -> & Hin). simpl.
    unfold reverse_mapping.
    rewrite !(reverse_mapping_foldl_elem_of _ _ label); try done.
    + by rewrite <-Hperm.
    + unfold dict_values in Hnodup. by rewrite <-Hperm.
  - rewrite !reverse_mapping_None; try done.
    unfold dict_values in *. by rewrite <-Hperm.
Qed.

(** X14. For a class mapping with distinct labels and distinct encoded
    indices, the answer does not depend on the order in which the mapping
    lists its members: two metadata documents whose class mappings hold the
    same members in different orders give the same result or the same
    error. *)
Theorem class_mapping_order_is_irrelevant m sc names members1 members2
    pool input_data :
  members1 ≡ₚ members2 →
  NoDup (dict_keys members1) →
  NoDup (dict_values members1) →
  (predict (loaded m sc {| feature_names := names; class_mapping := members1 |})
           pool input_data).1 =
  (predict (loaded m sc {| feature_names := names; class_mapping := members2 |})
           pool input_data).1.
Proof.
  intros Hperm Hkeys Hvalues.
  assert (NoDup (dict_keys members2)) as Hkeys2.
  { unfold dict_keys in *. by rewrite <-Hperm. }
  rewrite !predict_loaded. simpl.
  unfold evaluate_model, evaluate_model_body, loaded. simpl.
  rewrite !json_loads_NoDup by done.
  rewrite (reverse_mapping_Permutation _ _ Hperm Hvalues).
  rewrite (sorted_Permutation_eq (dict_keys members1) (dict_keys members2));
    [done|]. unfold dict_keys. by rewrite Hperm.
Qed.

Lemma class_mapping_order_is_irrelevant_witness :
  (predict (loaded (constant_classifier [0.3; 0.7]%Q) (identity_scaler 36)
              {| feature_names := PredictionInput_fields;
                 class_mapping := [("2", 0); ("10", 1)] |})
           [] example_input).1 =
  (predict (loaded (constant_classifier [0.3; 0.7]%Q) (identity_scaler 36)
              {| feature_names := PredictionInput_fields;
                 class_mapping := [("10", 1); ("2", 0)] |})
           [] example_input).1.
Proof.
  apply class_mapping_order_is_irrelevant.
  - apply Permutation_swap.
  - apply (bool_decide_unpack _). reflexivity.
  - apply (bool_decide_unpack _). reflexivity.
Defined.

(** ** The predicted class and the returned mapping *)

(** X15. In every successful answer, the label decoded from the classifier's
    prediction, whose integer value is [predicted_class], is one of the keys
    of [prediction_probabilities]. *)
Theorem predicted_label_is_a_key m sc md pool input_data result :
  (predict (loaded m sc md) pool input_data).1 = Ok result →
  ∃ label,
    original_prediction (loaded m sc md) input_data = Ok label ∧
    py_int label = Ok (predicted_class result) ∧
    label ∈ dict_keys (prediction_probabilities result).
Proof.
  rewrite predict_loaded. simpl.
  destruct (evaluate_model (loaded m sc md) input_data) as [r|e] eqn:Heval; [|done].
  intros [= ->].
  apply evaluate_model_Ok, evaluate_model_body_Ok in Heval
    as (X & Xs & prediction & proba & label & pd
        & HX & HXs & Hpred & Hproba & Hlabel & Hpd & Hint & _ & ->).
  exists label. split_and!; [|done|].
  - unfold original_prediction, loaded. simpl.
    rewrite HX. simpl. rewrite HXs. simpl. rewrite Hpred. simpl.
    rewrite Hproba. simpl. by rewrite Hlabel.
  - apply proba_dict_from_Ok in Hpd as [Hlen ->]; [|apply class_labels_NoDup].
    unfold dict_keys at 1. rewrite fst_zip by done.
    rewrite sorted_Permutation. apply reverse_mapping_Some in Hlabel.
    unfold dict_keys. apply list_elem_of_fmap. by exists (label, prediction).
Qed.

Lemma predicted_label_is_a_key_witness :
  ∃ label,
    original_prediction two_ten_globals example_input = Ok label ∧
    py_int label = Ok 10 ∧
    label ∈ dict_keys [("10", 0.3%Q); ("2", 0.7%Q)].
Proof.
  apply (predicted_label_is_a_key
           (constant_classifier [0.3; 0.7]%Q) (identity_scaler 36) two_ten_metadata
           [] example_input
           {| predicted_class := 10;
              prediction_probabilities := [("10", 0.3%Q); ("2", 0.7%Q)];
              confidence := 0.7%Q |}).
  reflexivity.
Defined.

(** X16. For a bundle in which the classifier returns one probability per
    class, every class is encoded by its position among the sorted labels,
    and [model.predict] is the first index of the maximum probability, every
    successful answer is consistent: the label whose integer value is
    [predicted_class] is the key of [prediction_probabilities] that holds
    [confidence], and no value of the mapping exceeds it. *)
Theorem predicted_label_holds_maximum m sc md pool input_data result :
  one_probability_per_class m md →
  encoded_in_sorted_order (json_loads (class_mapping md)) →
  predict_is_argmax m →
  (predict (loaded m sc md) pool input_data).1 = Ok result →
  ∃ label,
    original_prediction (loaded m sc md) input_data = Ok label ∧
    py_int label = Ok (predicted_class result) ∧
    dict_get label (prediction_probabilities result) = Some (confidence result) ∧
    Forall (λ p, (p <= confidence result)%Q)
           (dict_values (prediction_probabilities result)).
Proof.
  intros Harity Horder Hargmax Hresult.
  destruct (predicted_class_holds_confidence _ _ _ _ _ _ Harity Horder Hargmax Hresult)
    as (label & Hlabel & Hint & Hget).
  exists label. split_and!; try done.
  rewrite predict_loaded in Hresult. simpl in Hresult.
  destruct (evaluate_model (loaded m sc md) input_data) as [r|e] eqn:Heval; [|done].
  injection Hresult as ->.
  apply evaluate_model_Ok, evaluate_model_body_Ok in Heval
    as (X & Xs & prediction & proba & label' & pd
        & _ & _ & _ & Hproba & _ & Hpd & _ & Hmax & ->).
  apply proba_dict_from_Ok in Hpd as [Hlen ->]; [|apply class_labels_NoDup].
  apply py_max_Ok in Hmax as [_ Hall].
  unfold dict_values. rewrite snd_zip; [done|].
  rewrite class_labels_length. rewrite (Harity _ _ Hproba). lia.
Qed.

Lemma predicted_label_holds_maximum_witness :
  ∃ label,
    original_prediction (scenario_globals [("1", 0); ("2", 1)]) scenario_input
      = Ok label ∧
    py_int label = Ok 2 ∧
    dict_get label [("1", 0.3%Q); ("2", 0.7%Q)] = Some 0.7%Q ∧
    Forall (λ p, (p <= 0.7)%Q) (dict_values [("1", 0.3%Q); ("2", 0.7%Q)]).
Proof.
  apply (predicted_label_holds_maximum
           (constant_classifier [0.3; 0.7]%Q) (standard_scaler [0; 0]%Q [1; 1]%Q)
           {| feature_names := ["feat1"; "feat2"];
              class_mapping := [("1", 0); ("2", 1)] |}
           [] scenario_input
           {| predicted_class := 2;
              prediction_probabilities := [("1", 0.3%Q); ("2", 0.7%Q)];
              confidence := 0.7%Q |}).
  - intros X proba [= <-]. reflexivity.
  - apply one_two_in_sorted_order.
  - by apply constant_classifier_argmax.
  - reflexivity.
Defined.

Lemma dict_get_is_Some (d : list (string * Z)) label :
  label ∈ dict_keys d → is_Some (dict_get label d).
Proof.
  unfold dict_keys. induction d as [|[k v] d IH]; simpl.
  - by intros ?%elem_of_nil.
  - intros [->|Hin]%elem_of_cons.
    + rewrite decide_True by done. by eexists.
    + case_decide; [by eexists|by apply IH].
Qed.

(** X17. The probability dictionary gives every label the probability of its
    own encoded index, for every probability vector with one entry per class,
    exactly when each class is encoded by its position among the sorted
    labels (the encoded indices being non-negative).  Any other encoding
    mislabels some probability vector. *)
Theorem proba_dict_decodes_iff_sorted_encoding (members : list (string * Z)) :
  (∀ label index,
     dict_get label (json_loads members) = Some index → (0 ≤ index)%Z) →
  encoded_in_sorted_order (json_loads members) ↔
  ∀ prediction_proba : list Q,
    length prediction_proba = length (json_loads members) →
    ∃ proba_dict,
      proba_dict_from (sorted (dict_keys (json_loads members))) prediction_proba
        (seq 0 (length (sorted (dict_keys (json_loads members))))) []
        = Ok proba_dict ∧
      ∀ label index,
        dict_get label (json_loads members) = Some index →
        dict_get label proba_dict = prediction_proba !! Z.to_nat index.
Proof.
  intros Hnonneg. split.
  - intros Horder proba Hlen. eexists. split.
    + apply proba_dict_from_range; [apply class_labels_NoDup|].
      rewrite class_labels_length. lia.
    + intros label index Hget.
      destruct (sorted_position _ _ _ (dict_of_items_NoDup _) Hget) as [i Hi].
      pose proof (Horder i label Hi) as Hget'.
      assert (index = Z.of_nat i) as -> by congruence. rewrite Nat2Z.id.
      apply dict_get_zip; [apply class_labels_NoDup|done].
  - intros Hdecodes i label Hi.
    set (K := length (json_loads members)).
    set (proba := (λ j : nat, inject_Z (Z.of_nat j)) <$> seq 0 K).
    destruct (Hdecodes proba) as (pd & Hpd & Hget).
    { unfold proba. by rewrite length_fmap, length_seq. }
    apply proba_dict_from_Ok in Hpd as [_ ->]; [|apply class_labels_NoDup].
    destruct (dict_get_is_Some (json_loads members) label) as [index Hindex].
    { rewrite <-sorted_Permutation. by eapply list_elem_of_lookup_2. }
    specialize (Hget label index Hindex).
    rewrite (dict_get_zip _ _ i) in Hget; [|apply class_labels_NoDup|done].
    assert (i < K)%nat as HiK.
    { apply lookup_lt_Some in Hi. by rewrite class_labels_length in Hi. }
    unfold proba in Hget. rewrite !list_lookup_fmap in Hget.
    rewrite lookup_seq_lt in Hget by done. simpl in Hget.
    destruct (seq 0 K !! Z.to_nat index) as [j|] eqn:Hj; [|done].
    apply lookup_seq in Hj as [-> _]. simpl in Hget.
    injection Hget as Heq. apply Nat2Z.inj in Heq.
    pose proof (Hnonneg label index Hindex). rewrite Hindex. f_equal. lia.
Qed.

Lemma proba_dict_decodes_iff_sorted_encoding_witness :
  encoded_in_sorted_order (json_loads [("1", 0); ("2", 1)]) ↔
  ∀ prediction_proba : list Q,
    length prediction_proba = length (json_loads [("1", 0); ("2", 1)]) →
    ∃ proba_dict,
      proba_dict_from (sorted (dict_keys (json_loads [("1", 0); ("2", 1)])))
        prediction_proba
        (seq 0 (length (sorted (dict_keys (json_loads [("1", 0); ("2", 1)]))))) []
        = Ok proba_dict ∧
      ∀ label index,
        dict_get label (json_loads [("1", 0); ("2", 1)]) = Some index →
        dict_get label proba_dict = prediction_proba !! Z.to_nat index.
Proof.
  apply proba_dict_decodes_iff_sorted_encoding.
  intros label index.
  change (json_loads [("1", 0); ("2", 1)]) with [("1", 0); ("2", 1)]. simpl.
  repeat case_decide; intros [= <-]; lia.
Defined.

(** ** Loading again, and the service after the load *)

(** X18. Running [load_model_components] a second time on the globals it
    left changes nothing and returns the same value; and a run that returns
    [True] overwrites all three globals, so its outcome does not depend on
    what they held before. *)
Theorem load_model_components_idempotent dir g :
  load_model_components dir (load_model_components dir g).2
    = load_model_components dir g ∧
  ∀ g', (load_model_components dir g).1 = true →
        load_model_components dir g' = load_model_components dir g.
Proof.
  unfold load_model_components, set_model, set_scaler, set_metadata.
  destruct (xgboost_model_pkl dir) as [|m]; simpl; [done|].
  destruct (scaler_pkl dir) as [|sc]; simpl; [done|].
  by destruct (model_metadata_json dir) as [|md].
Qed.

Lemma load_model_components_idempotent_witness :
  load_model_components two_ten_dir (load_model_components two_ten_dir unloaded).2
    = load_model_components two_ten_dir unloaded ∧
  load_model_components two_ten_dir
      (loaded (constant_classifier []) (identity_scaler 0) two_ten_metadata)
    = load_model_components two_ten_dir unloaded.
Proof.
  split.
  - apply (proj1 (load_model_components_idempotent two_ten_dir unloaded)).
  - apply (proj2 (load_model_components_idempotent two_ten_dir unloaded)).
    reflexivity.
Defined.

Lemma predict_answer_any_executor g pool pool' input_data :
  (predict g pool input_data).1 = (predict g pool' input_data).1.
Proof.
  unfold predict. destruct (not_loaded g); [done|].
  by destruct (evaluate_model g input_data).
Qed.

(** X19. Once the components are loaded, the service stays as it is: after
    any further sequence of steps (health checks, requests, attempts of the
    load to continue) the globals are unchanged, the health check still
    answers healthy, and a request gets the answer it would have got
    before, whatever requests were served in between. *)
Theorem loaded_service_is_stable dir s s' :
  reachable dir s →
  not_loaded (globals s) = false →
  rtc (λ s1 s2, ∃ ev, step dir s1 ev s2) s s' →
  globals s' = globals s ∧
  health_check (globals s') = healthy ∧
  ∀ input_data,
    (predict (globals s') (executor s') input_data).1 =
    (predict (globals s) (executor s) input_data).1.
Proof.
  intros Hreach Hloaded Hsteps.
  assert (reachable dir s' ∧ globals s' = globals s) as [_ Hglobals].
  { induction Hsteps as [s|s s1 s2 [ev Hstep] _ IH]; [done|].
    assert (globals s1 = globals s) as Hs1.
    { destruct Hstep as [s s1 Hload| |]; [|done|done].
      destruct (loaded_published dir s (reachable_load_invariant dir s Hreach) Hloaded)
        as [Hpc _].
      unfold load_step in Hload. by rewrite Hpc in Hload. }
    destruct IH as [Hreach2 Hs2].
    - by eapply reachable_step.
    - by rewrite Hs1.
    - split; [done|]. by rewrite Hs2. }
  rewrite Hglobals. split_and!; [done| |].
  - unfold health_check. by rewrite Hloaded.
  - intros input_data. apply predict_answer_any_executor.
Qed.

Lemma loaded_service_is_stable_witness :
  let s := load_run two_ten_dir 3 startup in
  let s' := {| pc := Returned true; globals := two_ten_globals;
               executor := [example_input] |} in
  globals s' = globals s ∧
  health_check (globals s') = healthy ∧
  ∀ input_data,
    (predict (globals s') (executor s') input_data).1 =
    (predict (globals s) (executor s) input_data).1.
Proof.
  apply (loaded_service_is_stable two_ten_dir (load_run two_ten_dir 3 startup)
           {| pc := Returned true; globals := two_ten_globals;
              executor := [example_input] |}).
  - apply load_run_reachable, reachable_startup.
  - reflexivity.
  - apply rtc_once.
    exists (Predict example_input (predict two_ten_globals [] example_input).1).
    apply (step_predict two_ten_dir (load_run two_ten_dir 3 startup) example_input).
Defined.
